(** * PythonCAN-Utils: the CAN bootloader flasher, the network and Bluetooth
    receive paths, the GUI message table and the web backend's transmit lists.

    Shallow embedding of
    - src/drivers/Firmware_Flasher.py   (module [Flasher])
    - src/drivers/NetworkCAN_Driver.py  (module [NetRelay])
    - src/drivers/Bluetooth_Driver.py   (module [Bluetooth])
    - src/GUI_Master.py                 (module [Gui])
    - src/webserver/backend/api.py      (module [Api])

    Conventions: Python ints are [Z]; byte strings are [list Z] whose
    elements are in 0..255; wall-clock time is an integer number of
    milliseconds (microseconds in the GUI); Python exceptions that the code
    raises are an explicit [Exc] outcome. *)

From Stdlib Require Import ZArith Bool Ascii String Lia.
From Stdlib Require Import Sorting.Sorted Sorting.Permutation.
From Stdlib Require Import PrimFloat.
From stdpp Require Import base list gmap strings.

Open Scope Z_scope.

(** ** Shared helpers: Python's string formatting of integers *)
Module Fmt.

(** Digits of [n >= 0] in [base], most significant first. *)
Fixpoint digits_acc (fuel : nat) (base n : Z) (acc : list Z) : list Z :=
  match fuel with
  | O => n :: acc
  | S f => if n <? base then n :: acc
           else digits_acc f base (n / base) (n mod base :: acc)
  end.

Definition digit_char (d : Z) : ascii :=
  if d <? 10 then ascii_of_nat (48 + Z.to_nat d)
  else ascii_of_nat (55 + Z.to_nat d).

Definition string_of_digits (ds : list Z) : string :=
  string_of_list_ascii (map digit_char ds).

(** [str(n)] / [f"{n}"] for an int. *)
Definition dec (n : Z) : string :=
  if n <? 0 then "-" +:+ string_of_digits (digits_acc 64 10 (- n) [])
  else string_of_digits (digits_acc 64 10 n []).

(** [f"{n:0wX}"] for a non-negative int: upper-case hex, zero padded. *)
Definition hexw (w : nat) (n : Z) : string :=
  let ds := digits_acc 64 16 n [] in
  string_of_digits (repeat 0 (w - length ds) ++ ds).

End Fmt.

(** ** Python-level outcomes shared by every module *)
Module Py.

(** Exceptions the code can raise.  [OutOfFuel] is not a Python
    exception: it marks a [while] loop still running after more
    iterations than it can make when it terminates, i.e. a Python loop
    that does not terminate. *)
Inductive PyExc := IndexError | ValueError | TypeError | OutOfFuel.

Inductive Result (A : Type) := Ok (a : A) | Exc (e : PyExc).
Arguments Ok {A} a.
Arguments Exc {A} e.

End Py.
Export Py.

(** ** Firmware_Flasher.py *)
Module Flasher.

(** Bootloader protocol constants. *)
Definition CAN_HOST_ID : Z := 0x18000701.
Definition CAN_BOOTLOADER_ID : Z := 0x18000700.

Definition CMD_ERASE_FLASH : Z := 0x01.
Definition CMD_WRITE_DATA : Z := 0x07.
Definition CMD_READ_FLASH : Z := 0x03.
Definition CMD_JUMP_TO_APP : Z := 0x04.
Definition CMD_GET_STATUS : Z := 0x05.
Definition CMD_SET_ADDRESS : Z := 0x06.

Definition RESP_ACK : Z := 0x10.
Definition RESP_NACK : Z := 0x11.
Definition RESP_READY : Z := 0x14.
Definition RESP_DATA : Z := 0x15.

(** [ERROR_DESCRIPTIONS.get(code, dflt)] *)
Definition error_description (code : Z) (dflt : string) : string :=
  if code =? 0 then "No error"
  else if code =? 1 then "Invalid command"
  else if code =? 2 then "Invalid address"
  else if code =? 3 then "Flash erase failed"
  else if code =? 4 then "Flash write failed"
  else if code =? 5 then "Invalid data length"
  else if code =? 6 then "No valid application"
  else if code =? 7 then "Operation timeout"
  else dflt.

Definition APP_START_ADDRESS : Z := 0x08008000.
Definition APP_MAX_SIZE : Z := 208 * 1024.

(** Timing, in milliseconds. *)
Definition RESPONSE_TIMEOUT : Z := 1000.
Definition ERASE_TIMEOUT : Z := 15000.
Definition WRITE_CHUNK_SIZE : Z := 4.

(** A received message as the flasher sees it ([msg.id], [msg.data]). *)
Record Frame := mkFrame { fr_id : Z; fr_ext : bool; fr_data : list Z }.

(** [FlashProgress] *)
Record Progress := mkProgress {
  stage : string; progress : Z; message : string;
  bytes_processed : Z; total_bytes : Z }.

(** One call of [driver.read_message(timeout)]: the clock (ms) when the
    call returned, and what it returned. *)
Definition Poll := (Z * option Frame)%type.

(** The flasher's world: the clock, the trace of what the driver's
    [read_message] calls return, the frames put on the bus, the progress
    events reported to the callback, and whether [send_message] succeeds. *)
Record FState := mkFS {
  now : Z; inbox : list Poll; sent : list Frame;
  events : list Progress; tx_ok : bool }.

Definition set_clock (c : Z) (ib : list Poll) (s : FState) : FState :=
  mkFS c ib (sent s) (events s) (tx_ok s).
Definition add_sent (f : Frame) (s : FState) : FState :=
  mkFS (now s) (inbox s) (sent s ++ [f]) (events s) (tx_ok s).
Definition add_event (e : Progress) (s : FState) : FState :=
  mkFS (now s) (inbox s) (sent s) (events s ++ [e]) (tx_ok s).

(** State-and-exception monad. *)
Definition M (A : Type) := FState -> Result A * FState.

Definition ret {A} (a : A) : M A := fun s => (Ok a, s).
Definition bind {A B} (c : M A) (k : A -> M B) : M B :=
  fun s => match c s with
           | (Ok a, s') => k a s'
           | (Exc e, s') => (Exc e, s')
           end.
Definition raise {A} (e : PyExc) : M A := fun s => (Exc e, s).

Notation "'let!' x ':=' c 'in' k" := (bind c (fun x => k))
  (at level 200, x name, c at level 100, k at level 200).
Notation "c ;;; k" := (bind c (fun _ => k)) (at level 100, right associativity).

(** [try: ... except Exception: ...]; a non-terminating loop is not caught. *)
Definition try_catch {A} (c : M A) (h : PyExc -> M A) : M A :=
  fun s => match c s with
           | (Exc OutOfFuel, s') => (Exc OutOfFuel, s')
           | (Exc e, s') => h e s'
           | r => r
           end.

Definition get_now : M Z := fun s => (Ok (now s), s).
Definition sleep (ms : Z) : M unit :=
  fun s => (Ok tt, set_clock (now s + ms) (inbox s) s).

(** [_report_progress] *)
Definition report (st : string) (p : Z) (m : string) (b t : Z) : M unit :=
  fun s => (Ok tt, add_event (mkProgress st p m b t) s).

(** [l[i]] on a byte string. *)
Definition byte_at (l : list Z) (i : nat) : M Z :=
  match nth_error l i with Some b => ret b | None => raise IndexError end.

(** [bytes(l)]: every element must be in 0..255. *)
Definition to_bytes (l : list Z) : M (list Z) :=
  if forallb (fun b => (0 <=? b) && (b <? 256)) l then ret l else raise ValueError.

(** [driver.send_message(id, data, is_extended)]: the frame is put on the
    bus when the driver accepts it. *)
Definition send_message (id : Z) (data : list Z) (ext : bool) : M bool :=
  fun s => if tx_ok s then (Ok true, add_sent (mkFrame id ext data) s)
           else (Ok false, s).

(** [_send_command] *)
Definition send_command (command : Z) (data : list Z) : M bool :=
  let msg_data := command :: data in
  let msg_data := msg_data ++ repeat 0 (8 - length msg_data) in
  let! b := to_bytes (firstn 8 msg_data) in
  send_message CAN_HOST_ID b true.

(** *** The receive loops

    [while (time.time() - start_time) < timeout: msg = read_message(t); ...]
    One iteration examines the message it read and either keeps waiting or
    leaves the loop with a value. *)
Inductive Step (A : Type) := Continue | Exit (r : Result A).
Arguments Continue {A}.
Arguments Exit {A} r.

(** When nothing more arrives, every [read_message(t)] returns [None] after
    [t] ms until the deadline has passed. *)
Definition idle_until (t start timeout clk : Z) : Z :=
  clk + t * ((start + timeout - clk + t - 1) / t).

Fixpoint poll_scan {A} (t start timeout : Z) (step : Frame -> Step A) (dflt : A)
    (clk : Z) (ib : list Poll) : Result A * Z * list Poll :=
  if clk - start <? timeout then
    match ib with
    | [] => (Ok dflt, idle_until t start timeout clk, [])
    | (tm, r) :: rest =>
        let clk' := Z.max clk tm in
        match r with
        | Some m =>
            match step m with
            | Continue => poll_scan t start timeout step dflt clk' rest
            | Exit x => (x, clk', rest)
            end
        | None => poll_scan t start timeout step dflt clk' rest
        end
    end
  else (Ok dflt, clk, ib).

Definition poll_loop {A} (t timeout : Z) (step : Frame -> Step A) (dflt : A) : M A :=
  fun s => let '(r, clk, ib) := poll_scan t (now s) timeout step dflt (now s) (inbox s) in
           (r, set_clock clk ib s).

(** [while True: msg = read_message(t); if msg: cleared += 1 else: break] *)
Fixpoint drain_scan (t clk : Z) (ib : list Poll) : nat * Z * list Poll :=
  match ib with
  | [] => (O, clk + t, [])
  | (tm, None) :: rest => (O, Z.max clk tm, rest)
  | (tm, Some _) :: rest =>
      let '(c, clk', ib') := drain_scan t (Z.max clk tm) rest in (S c, clk', ib')
  end.

Definition drain (t : Z) : M nat :=
  fun s => let '(c, clk, ib) := drain_scan t (now s) (inbox s) in
           (Ok c, set_clock clk ib s).

(** The canonical heartbeat test of [_wait_response] and [set_address]:
    [msg.data and msg.data[0] == RESP_READY and len(msg.data) >= 3 and
     msg.data[1] == 0x01 and msg.data[2] == 0x00] *)
Definition is_heartbeat (d : list Z) : bool :=
  match d with
  | [] => false
  | b0 :: _ => (b0 =? RESP_READY) && (3 <=? Z.of_nat (length d))
               && (nth 1 d 0 =? 1) && (nth 2 d 0 =? 0)
  end.

(** Loop body of [_wait_response]: frames of other IDs are passed over,
    heartbeats are skipped, anything else is returned after the debug line
    that formats [msg.data[0]]. *)
Definition wait_step (m : Frame) : Step (option Frame) :=
  if fr_id m =? CAN_BOOTLOADER_ID then
    if is_heartbeat (fr_data m) then Continue
    else match fr_data m with
         | [] => Exit (Exc IndexError)
         | _ :: _ => Exit (Ok (Some m))
         end
  else Continue.

(** [_wait_response(timeout)], polling with [read_message(timeout=0.1)]. *)
Definition wait_response (timeout : Z) : M (option Frame) :=
  poll_loop 100 timeout wait_step None.


(** The reset wait of [send_reset_message]: the first frame from the
    bootloader whose first byte is READY; its second byte is the version. *)
Definition reset_step (m : Frame) : Step (option Z) :=
  if (fr_id m =? CAN_BOOTLOADER_ID) && (0 <? Z.of_nat (length (fr_data m)))
     && (nth 0 (fr_data m) 0 =? RESP_READY)
  then Exit (Ok (Some (if 1 <? Z.of_nat (length (fr_data m)) then nth 1 (fr_data m) 0 else 0)))
  else Continue.

(** The ACK wait of [set_address]. *)
Definition setaddr_step (m : Frame) : Step bool :=
  if fr_id m =? CAN_BOOTLOADER_ID then
    if is_heartbeat (fr_data m) then Continue
    else match fr_data m with
         | [] => Exit (Exc IndexError)
         | b0 :: _ => Exit (Ok (b0 =? RESP_ACK))
         end
  else Continue.

(** *** Protocol operations *)

(** [send_reset_message] *)
Definition send_reset_message (module_number : Z) : M bool :=
  if (module_number <? 0) || (5 <? module_number) then
    report "error" 0 ("Invalid module number: " +:+ Fmt.dec module_number) 0 0 ;;;
    ret false
  else
    report "reset" 0 ("Resetting Module " +:+ Fmt.dec module_number +:+ "...") 0 0 ;;;
    let reset_id := 0x08F00F02 + Z.shiftl module_number 16 in
    let! ok := send_message reset_id (repeat 0 8) true in
    if negb ok then report "error" 0 "Failed to send reset message" 0 0 ;;; ret false
    else
      let! v := poll_loop 100 3000 reset_step None in
      match v with
      | Some version =>
          report "reset" 100 ("Bootloader ready (v" +:+ Fmt.dec version +:+ ")") 0 0 ;;;
          ret true
      | None => report "error" 0 "No READY message from bootloader" 0 0 ;;; ret false
      end.

(** [erase_flash] *)
Definition erase_flash : M bool :=
  report "erase" 0 "Erasing flash memory..." 0 0 ;;;
  let! ok := send_command CMD_ERASE_FLASH [] in
  if negb ok then report "error" 0 "Failed to send erase command" 0 0 ;;; ret false
  else
    let! resp := wait_response ERASE_TIMEOUT in
    match resp with
    | None => report "error" 0 "Erase timeout" 0 0 ;;; ret false
    | Some r =>
        let! b0 := byte_at (fr_data r) 0 in
        if b0 =? RESP_ACK then
          report "erase" 100 "Flash erased successfully" 0 0 ;;; ret true
        else if b0 =? RESP_NACK then
          let error_code := if 1 <? Z.of_nat (length (fr_data r)) then nth 1 (fr_data r) 0 else 0 in
          let error_desc := error_description error_code ("Error " +:+ Fmt.dec error_code) in
          report "error" 0 ("Erase failed: " +:+ error_desc) 0 0 ;;; ret false
        else
          report "error" 0 ("Unexpected erase response: 0x" +:+ Fmt.hexw 2 b0) 0 0 ;;;
          ret false
    end.

(** [set_address] *)
Definition set_address (address : Z) : M bool :=
  let! _ := drain 10 in
  let addr_bytes := [Z.land (Z.shiftr address 24) 255; Z.land (Z.shiftr address 16) 255;
                     Z.land (Z.shiftr address 8) 255; Z.land address 255] in
  let! ok := send_command CMD_SET_ADDRESS addr_bytes in
  if negb ok then ret false
  else poll_loop 100 15000 setaddr_step false.

(** [write_4bytes] *)
Definition write_4bytes (data : list Z) (wait_ack : bool) : M bool :=
  if negb (Nat.eqb (length data) 4) then ret false
  else
    let! ok := send_command CMD_WRITE_DATA (4 :: data) in
    if negb ok then ret false
    else if negb wait_ack then ret true
    else
      let! resp := wait_response 100 in
      match resp with
      | None => ret false
      | Some r =>
          let! b0 := byte_at (fr_data r) 0 in
          if b0 =? RESP_ACK then ret true
          else if b0 =? RESP_NACK then
            let error_code := if 1 <? Z.of_nat (length (fr_data r)) then nth 1 (fr_data r) 0 else 0 in
            report "error" 0 ("Write failed: " +:+ error_description error_code "Unknown") 0 0 ;;;
            ret false
          else ret false
      end.

(** [read_pending_acks]: each iteration consumes at least one poll or
    leaves the loop, so [length inbox + 1] iterations always suffice. *)
Fixpoint rpa_loop (fuel : nat) (expected timeout start ack_count : Z) : M Z :=
  let! clk := get_now in
  if (ack_count <? expected) && (clk - start <? timeout) then
    match fuel with
    | O => raise OutOfFuel
    | S f =>
        let remaining_time := timeout - (clk - start) in
        let! resp := wait_response (Z.min 50 remaining_time) in
        match resp with
        | None => ret ack_count
        | Some r =>
            let! b0 := byte_at (fr_data r) 0 in
            if b0 =? RESP_ACK then rpa_loop f expected timeout start (ack_count + 1)
            else if b0 =? RESP_NACK then
              let error_code := if 1 <? Z.of_nat (length (fr_data r)) then nth 1 (fr_data r) 0 else 0 in
              report "error" 0 ("Write failed: " +:+ error_description error_code "Unknown") 0 0 ;;;
              ret (-1)
            else rpa_loop f expected timeout start ack_count
        end
    end
  else ret ack_count.

Definition read_pending_acks (expected_count timeout : Z) : M Z :=
  fun s => rpa_loop (S (length (inbox s))) expected_count timeout (now s) 0 s.

(** Python slicing [l[a:b]] for [0 <= a]. *)
Definition py_slice (l : list Z) (a b : Z) : list Z :=
  firstn (Z.to_nat (b - a)) (skipn (Z.to_nat a) l).

(** Python [l[:n]] for [0 <= n], by recursion on the list. *)
Fixpoint take_upto (n : Z) (l : list Z) : list Z :=
  match l with
  | [] => []
  | x :: r => if n <=? 0 then [] else x :: take_upto (n - 1) r
  end.

(** The chunk loop of [write_firmware]; every iteration advances
    [bytes_written] by 4, so [length firmware_data] iterations suffice. *)
Fixpoint write_loop (fuel : nat) (firmware_data : list Z) (total_bytes batch_size : Z)
    (bytes_written chunks_in_batch : Z) : M bool :=
  if bytes_written <? total_bytes then
    match fuel with
    | O => raise OutOfFuel
    | S f =>
        let chunk_end := Z.min (bytes_written + WRITE_CHUNK_SIZE) total_bytes in
        let chunk0 := py_slice firmware_data bytes_written chunk_end in
        let chunk := if Z.of_nat (length chunk0) <? 4
                     then chunk0 ++ repeat 255 (Z.to_nat (4 - Z.of_nat (length chunk0)))
                     else chunk0 in
        let is_last_chunk := total_bytes <=? bytes_written + WRITE_CHUNK_SIZE in
        let wait_for_ack := (batch_size - 1 <=? chunks_in_batch) || is_last_chunk in
        let! ok := write_4bytes chunk false in
        if negb ok then
          report "error" 0 ("Write failed at offset 0x" +:+ Fmt.hexw 8 bytes_written) 0 0 ;;;
          ret false
        else
          let len_chunk := Z.of_nat (length chunk) in
          let bw := bytes_written +
                    (if negb (chunk_end =? total_bytes) || (len_chunk =? 4) then len_chunk
                     else chunk_end - bytes_written) in
          let cib := chunks_in_batch + 1 in
          let! next := (if wait_for_ack then
                          let! ack_count := read_pending_acks cib 1000 in
                          if (ack_count <? 0) || negb (ack_count =? cib) then
                            report "error" 0 ("ACK mismatch at offset 0x" +:+
                                              Fmt.hexw 8 (bw - cib * WRITE_CHUNK_SIZE)) 0 0 ;;;
                            ret None
                          else ret (Some 0)
                        else ret (Some cib)) in
          match next with
          | None => ret false
          | Some cib' =>
              (* the message also carries the KB/s rate, a float of wall-clock time *)
              report "write" (bw * 100 / total_bytes) "Writing" bw total_bytes ;;;
              write_loop f firmware_data total_bytes batch_size bw cib'
          end
    end
  else ret true.

(** [write_firmware] *)
Definition write_firmware (firmware_data : list Z) (batch_size : Z) : M bool :=
  let total_bytes := Z.of_nat (length firmware_data) in
  report "write" 0 "Writing firmware..." 0 total_bytes ;;;
  let! _ := drain 50 in
  let! ok := set_address APP_START_ADDRESS in
  if negb ok then report "error" 0 "Failed to set initial address" 0 0 ;;; ret false
  else
    let! ok := write_loop (length firmware_data) firmware_data total_bytes batch_size 0 0 in
    if negb ok then ret false
    else
      report "write" 100 "Write complete" total_bytes total_bytes ;;;
      ret true.


(** One pending read of [verify_flash]: address, size, offset. *)
Record ReadInfo := mkRead { ri_address : Z; ri_size : Z; ri_offset : Z }.

(** The [for _ in range(batch_size)] loop building a batch of reads. *)
Fixpoint build_batch (k : nat) (n current_address bytes_verified : Z)
    : list ReadInfo * Z * Z :=
  match k with
  | O => ([], current_address, bytes_verified)
  | S k' =>
      if n <=? bytes_verified then ([], current_address, bytes_verified)
      else
        let read_size := Z.min 7 (n - bytes_verified) in
        let '(rs, ca, bv) := build_batch k' n (current_address + read_size)
                                         (bytes_verified + read_size) in
        (mkRead current_address read_size bytes_verified :: rs, ca, bv)
  end.

Definition read_addr_bytes (ri : ReadInfo) : list Z :=
  [Z.land (Z.shiftr (ri_address ri) 24) 255; Z.land (Z.shiftr (ri_address ri) 16) 255;
   Z.land (Z.shiftr (ri_address ri) 8) 255; Z.land (ri_address ri) 255; ri_size ri].

Fixpoint send_reads (rs : list ReadInfo) : M bool :=
  match rs with
  | [] => ret true
  | ri :: rest =>
      let! ok := send_command CMD_READ_FLASH (read_addr_bytes ri) in
      if negb ok then
        report "error" 0 ("Failed to send read at 0x" +:+ Fmt.hexw 8 (ri_address ri)) 0 0 ;;;
        ret false
      else send_reads rest
  end.

Fixpoint check_reads (expected_data : list Z) (rs : list ReadInfo) : M bool :=
  match rs with
  | [] => ret true
  | ri :: rest =>
      let! msg := wait_response 200 in
      match msg with
      | Some m =>
          match fr_data m with
          | b0 :: _ =>
              if b0 =? RESP_DATA then
                let read_data := py_slice (fr_data m) 1 (1 + ri_size ri) in
                let expected_chunk := py_slice expected_data (ri_offset ri)
                                               (ri_offset ri + ri_size ri) in
                if bool_decide (read_data = expected_chunk) then
                  check_reads expected_data rest
                else
                  report "error" 0 ("Verification failed at 0x" +:+ Fmt.hexw 8 (ri_address ri)) 0 0 ;;;
                  ret false
              else
                report "error" 0 ("Failed to read at 0x" +:+ Fmt.hexw 8 (ri_address ri)) 0 0 ;;;
                ret false
          | [] =>
              report "error" 0 ("Failed to read at 0x" +:+ Fmt.hexw 8 (ri_address ri)) 0 0 ;;;
              ret false
          end
      | None =>
          report "error" 0 ("Failed to read at 0x" +:+ Fmt.hexw 8 (ri_address ri)) 0 0 ;;;
          ret false
      end
  end.

(** The outer [while bytes_verified < len(expected_data)] loop; with
    [batch_size <= 0] a batch is empty and the Python loop never ends. *)
Fixpoint verify_loop (fuel : nat) (expected_data : list Z) (batch_size address bytes_verified : Z)
    : M bool :=
  let n := Z.of_nat (length expected_data) in
  if bytes_verified <? n then
    match fuel with
    | O => raise OutOfFuel
    | S f =>
        let '(batch_reads, current_address, bv) :=
          build_batch (Z.to_nat batch_size) n address bytes_verified in
        let! ok := send_reads batch_reads in
        if negb ok then ret false
        else
          let! ok := check_reads expected_data batch_reads in
          if negb ok then ret false
          else
            report "verify" (bv * 100 / n) "Verifying" bv n ;;;
            verify_loop f expected_data batch_size current_address bv
    end
  else ret true.

(** [verify_flash] *)
Definition verify_flash (expected_data : list Z) (batch_size : Z) : M bool :=
  let n := Z.of_nat (length expected_data) in
  report "verify" 0 "Verifying flash..." 0 n ;;;
  let! ok := verify_loop (length expected_data) expected_data batch_size APP_START_ADDRESS 0 in
  if negb ok then ret false
  else report "verify" 100 "Verification successful" n n ;;; ret true.

(** [jump_to_application] *)
Definition jump_to_application : M bool :=
  report "jump" 0 "Starting application..." 0 0 ;;;
  let! ok := send_command CMD_JUMP_TO_APP [] in
  if negb ok then report "error" 0 "Failed to send jump command" 0 0 ;;; ret false
  else
    let! resp := wait_response 500 in
    match resp with
    | Some r =>
        let! b0 := byte_at (fr_data r) 0 in
        if b0 =? RESP_ACK then report "jump" 100 "Application started" 0 0 ;;; ret true
        else
          let! b0' := byte_at (fr_data r) 0 in
          if b0' =? RESP_NACK then
            let error_code := if 1 <? Z.of_nat (length (fr_data r)) then nth 1 (fr_data r) 0 else 0 in
            report "error" 0 ("Jump failed: " +:+ error_description error_code "Unknown") 0 0 ;;;
            ret false
          else report "jump" 100 "Jump command sent" 0 0 ;;; ret true
    | None => report "jump" 100 "Jump command sent" 0 0 ;;; ret true
    end.

(** [pad_to_4byte_boundary] *)
Definition pad_to_4byte_boundary (data : list Z) : list Z :=
  let padding_needed := (4 - Z.of_nat (length data) mod 4) mod 4 in
  if 0 <? padding_needed then data ++ repeat 255 (Z.to_nat padding_needed) else data.

(** [flash_firmware], split where the image is ready: loading message,
    truncation and padding first ... *)
Definition flash_prepare (file_name : string) (firmware_data : list Z) : M (list Z) :=
  report "write" 0 ("Loading " +:+ file_name +:+ "...") 0 0 ;;;
  let original_size := Z.of_nat (length firmware_data) in
  let! fw := (if APP_MAX_SIZE <? original_size then
                report "write" 0 ("Truncating to " +:+ Fmt.dec APP_MAX_SIZE +:+ " bytes") 0 0 ;;;
                ret (take_upto APP_MAX_SIZE firmware_data)
              else ret firmware_data) in
  ret (pad_to_4byte_boundary fw).

(** ... then the protocol stages on the prepared image. *)
Definition flash_stages (firmware_data : list Z) (module_number : Z)
    (verify jump : bool) (batch_size : Z) : M bool :=
  let! ok := send_reset_message module_number in
  if negb ok then ret false
  else
    sleep 500 ;;;
    let! ok := erase_flash in
    if negb ok then ret false
    else
      let! ok := write_firmware firmware_data batch_size in
      if negb ok then ret false
      else
        let! ok := (if verify then verify_flash firmware_data batch_size else ret true) in
        if negb ok then ret false
        else
          (if jump then
             let! j := jump_to_application in
             if negb j then report "error" 0 "Jump command may have failed" 0 0 else ret tt
           else ret tt) ;;;
          report "complete" 100 "Flashing completed successfully!" 0 0 ;;;
          ret true.

Definition exc_text (e : PyExc) : string :=
  match e with
  | IndexError => "index out of range"
  | ValueError => "bytes must be in range(0, 256)"
  | TypeError => ""
  | OutOfFuel => ""
  end.

Definition flash_handler (e : PyExc) : M bool :=
  report "error" 0 ("Error: " +:+ exc_text e) 0 0 ;;; ret false.

(** [flash_firmware(firmware_path, module_number, verify, jump, batch_size)];
    the file's name and contents are the first two arguments. *)
Definition flash_firmware (file_name : string) (firmware_data : list Z) (module_number : Z)
    (verify jump : bool) (batch_size : Z) : M bool :=
  try_catch
    (let! fw := flash_prepare file_name firmware_data in
     flash_stages fw module_number verify jump batch_size)
    flash_handler.

(** *** Frames as they appear on the bus *)

(** The SET_ADDRESS command frame of [set_address(address)]. *)
Definition set_address_frame (address : Z) : Frame :=
  mkFrame CAN_HOST_ID true
    [CMD_SET_ADDRESS; Z.land (Z.shiftr address 24) 255; Z.land (Z.shiftr address 16) 255;
     Z.land (Z.shiftr address 8) 255; Z.land address 255; 0; 0; 0].

(** The WRITE_DATA command frame of [write_4bytes(chunk)]. *)
Definition write_data_frame (chunk : list Z) : Frame :=
  mkFrame CAN_HOST_ID true ([CMD_WRITE_DATA; 4] ++ chunk ++ [0; 0]).

(** The READ_FLASH command frame of one read of [verify_flash]. *)
Definition read_flash_frame (ri : ReadInfo) : Frame :=
  mkFrame CAN_HOST_ID true ([CMD_READ_FLASH] ++ read_addr_bytes ri ++ [0; 0]).

(** The 4-byte chunks of an image, in order, the last one filled up with
    0xFF bytes. *)
Fixpoint write_chunks (l : list Z) : list (list Z) :=
  match l with
  | [] => []
  | a :: b :: c :: d :: r => [a; b; c; d] :: write_chunks r
  | r => [r ++ repeat 255 (4 - length r)]
  end.

(** *** Sample target traces *)

Definition from_target (d : list Z) : option Frame := Some (mkFrame CAN_BOOTLOADER_ID true d).
Definition ready_frame : list Z := [RESP_READY; 1; 0; 0; 0; 0; 0; 0].
Definition ack_frame : list Z := [RESP_ACK; 0; 0; 0; 0; 0; 0; 0].

(** A target answering an empty image: READY after the reset, ACK to
    ERASE, two empty polls for the queue drains, ACK to SET_ADDRESS, ACK
    to JUMP. *)
Definition coop_empty : list Poll :=
  [(10, from_target ready_frame); (600, from_target ack_frame); (650, None); (660, None);
   (670, from_target ack_frame); (700, from_target ack_frame)].

(** The same for the one-byte image [0xAB]: one WRITE_DATA ACK and the
    read-back of the padded word. *)
Definition coop_one : list Poll :=
  [(10, from_target ready_frame); (600, from_target ack_frame); (650, None); (660, None);
   (670, from_target ack_frame); (680, from_target ack_frame);
   (690, from_target [RESP_DATA; 0xAB; 255; 255; 255; 0; 0; 0]); (700, from_target ack_frame)].

Definition is_write_data (f : Frame) : bool :=
  (fr_id f =? CAN_HOST_ID) && (hd 0 (fr_data f) =? CMD_WRITE_DATA).

End Flasher.

(** ** Python's text-to-number conversions used by the receive paths *)
Module Text.

Definition hex_digit (c : ascii) : option Z :=
  let n := Z.of_nat (nat_of_ascii c) in
  if (48 <=? n) && (n <=? 57) then Some (n - 48)
  else if (65 <=? n) && (n <=? 70) then Some (n - 55)
  else if (97 <=? n) && (n <=? 102) then Some (n - 87)
  else None.

Definition dec_digit (c : ascii) : option Z :=
  let n := Z.of_nat (nat_of_ascii c) in
  if (48 <=? n) && (n <=? 57) then Some (n - 48) else None.

(** Value of a digit string, most significant digit first. *)
Fixpoint digits_value (digit : ascii -> option Z) (base : Z) (acc : Z) (l : list ascii)
    : option Z :=
  match l with
  | [] => Some acc
  | c :: r => match digit c with
              | Some d => digits_value digit base (base * acc + d) r
              | None => None
              end
  end.

Definition nonempty_digits (digit : ascii -> option Z) (base : Z) (l : list ascii) : option Z :=
  match l with [] => None | _ => digits_value digit base 0 l end.

(** [int(s, 16)]: an optional [0x]/[0X] prefix and at least one hex digit;
    [None] is the [ValueError].  (Python also accepts surrounding
    whitespace and [_] separators; such strings are not modelled.) *)
Definition int16 (s : string) : option Z :=
  match list_ascii_of_string s with
  | "0"%char :: x :: r =>
      if (x =? "x"%char)%char || (x =? "X"%char)%char then nonempty_digits hex_digit 16 r
      else nonempty_digits hex_digit 16 ("0"%char :: x :: r)
  | l => nonempty_digits hex_digit 16 l
  end.

(** [int(s)]: an optional sign and at least one decimal digit (same
    caveat as [int16]). *)
Definition int10 (s : string) : option Z :=
  match list_ascii_of_string s with
  | "-"%char :: r => option_map Z.opp (nonempty_digits dec_digit 10 r)
  | "+"%char :: r => nonempty_digits dec_digit 10 r
  | l => nonempty_digits dec_digit 10 l
  end.

Definition is_ascii_space (c : ascii) : bool :=
  let n := nat_of_ascii c in
  (Nat.eqb n 32) || (Nat.eqb n 9) || (Nat.eqb n 10) || (Nat.eqb n 11)
  || (Nat.eqb n 12) || (Nat.eqb n 13).

(** [bytes.fromhex(s)]: pairs of hex digits, ASCII whitespace allowed
    between pairs; [None] is the [ValueError]. *)
Fixpoint fromhex (l : list ascii) : option (list Z) :=
  match l with
  | [] => Some []
  | c :: r =>
      if is_ascii_space c then fromhex r
      else match r with
           | c2 :: r2 =>
               match hex_digit c, hex_digit c2 with
               | Some a, Some b => option_map (cons (16 * a + b)) (fromhex r2)
               | _, _ => None
               end
           | [] => None
           end
  end.

(** [s.replace(' ', '')] *)
Definition remove_spaces (s : string) : list ascii :=
  filter (fun c => negb (c =? " "%char)%char) (list_ascii_of_string s).

(** [bytes(l)] for a list of ints. *)
Definition bytes_of_list (l : list Z) : option (list Z) :=
  if forallb (fun b => (0 <=? b) && (b <? 256)) l then Some l else None.

(** [s.startswith(p)] *)
Definition startswith (p s : string) : bool :=
  String.prefix p s.

End Text.

(** ** NetworkCAN_Driver.py *)
Module NetRelay.

(** [CANMessage], built through its [__post_init__]. *)
Record CANMessage := mkCANMessage {
  id : Z; data : list Z; timestamp : Z;
  is_extended : bool; is_remote : bool; dlc : Z }.

Definition CANMessage_init (id : Z) (data : list Z) (timestamp : Z)
    (is_extended is_remote : bool) (dlc : Z) : CANMessage :=
  mkCANMessage id data timestamp is_extended is_remote
    (if dlc =? 0 then Z.of_nat (length data) else dlc).

(** A JSON value the server may send for [id]. *)
Inductive IdVal := IdInt (n : Z) | IdStr (s : string).
(** A JSON value the server may send for [data]. *)
Inductive DataVal := DList (l : list Z) | DStr (s : string).

(** One element of the [messages] array of [GET /api/messages]; a missing
    key is [None].  Server timestamps are kept as integers (server ticks). *)
Record ServerMsg := mkServerMsg {
  sm_timestamp : option Z; sm_id : option IdVal; sm_data : option DataVal;
  sm_data_hex : option string; sm_is_extended : option bool;
  sm_is_remote : option bool; sm_dlc : option Z }.

Definition get {A} (o : option A) (d : A) : A :=
  match o with Some a => a | None => d end.

Definition ts_of (m : ServerMsg) : Z := get (sm_timestamp m) 0.

(** The body of the [for msg_data in messages] loop after the high-water
    mark test: parse the message into a [CANMessage].  Python evaluates the
    default of [msg_data.get('is_extended', msg_id > 0x7FF)] before the
    lookup, so the comparison runs for every message. *)
Definition parse_message (m : ServerMsg) (timestamp : Z) : Result CANMessage :=
  let msg_id := get (sm_id m) (IdInt 0) in
  let raw0 := match get (sm_data m) (DList []) with
              | DStr s => Text.fromhex (Text.remove_spaces s)
              | DList l => Text.bytes_of_list l
              end in
  match raw0 with
  | None => Exc ValueError
  | Some raw1 =>
      let raw2 := match raw1, sm_data_hex m with
                  | [], Some h => if String.eqb h "" then Some raw1
                                  else Text.fromhex (Text.remove_spaces h)
                  | _, _ => Some raw1
                  end in
      match raw2 with
      | None => Exc ValueError
      | Some raw_data =>
          match msg_id with
          | IdStr _ => Exc TypeError
          | IdInt n =>
              let is_ext := get (sm_is_extended m) (0x7FF <? n) in
              Ok (CANMessage_init n raw_data timestamp is_ext
                    (get (sm_is_remote m) false)
                    (get (sm_dlc m) (Z.of_nat (length raw_data))))
          end
      end
  end.

(** [sorted(messages, key=lambda m: m.get('timestamp', 0))]: a stable
    insertion sort. *)
Fixpoint insert_by_ts (x : ServerMsg) (l : list ServerMsg) : list ServerMsg :=
  match l with
  | [] => [x]
  | y :: r => if ts_of y <=? ts_of x then y :: insert_by_ts x r else x :: y :: r
  end.

Definition sort_by_ts (l : list ServerMsg) : list ServerMsg :=
  fold_left (fun acc x => insert_by_ts x acc) l [].

(** The [for] loop over a sorted batch: [(new mark, frames passed to the
    callback, whether an exception left the loop)].  The mark is advanced
    before the message is parsed. *)
Fixpoint dispatch (last : Z) (ms : list ServerMsg) : Z * list CANMessage * bool :=
  match ms with
  | [] => (last, [], false)
  | m :: rest =>
      let ts := ts_of m in
      if ts <=? last then dispatch last rest
      else match parse_message m ts with
           | Exc _ => (ts, [], true)
           | Ok c => let '(l, cs, e) := dispatch ts rest in (l, c :: cs, e)
           end
  end.

(** What one [GET /api/messages] poll produced. *)
Inductive PollResp :=
  | HttpOk (success : bool) (messages : list ServerMsg)  (** status 200, JSON body *)
  | HttpStatus (code : Z)                               (** any other status *)
  | HttpTimeout | HttpConnError
  | HttpOtherError.                                     (** e.g. a body that is not JSON *)

(** The receive thread's state: [self._last_timestamp], [error_count], and
    the frames handed to [self._receive_callback] so far. *)
Record RxState := mkRx { last_ts : Z; error_count : Z; delivered : list CANMessage }.

Definition max_errors : Z := 10.

Definition poll_once (st : RxState) (p : PollResp) : RxState :=
  match p with
  | HttpOk true messages =>
      let '(l, cs, e) := dispatch (last_ts st) (sort_by_ts messages) in
      mkRx l (if e then error_count st + 1 else 0) (delivered st ++ cs)
  | HttpOk false _ => st
  | HttpStatus _ | HttpTimeout | HttpConnError | HttpOtherError =>
      mkRx (last_ts st) (error_count st + 1) (delivered st)
  end.

(** [_receive_loop]: one poll per element, until the polls stop (the thread
    is stopped or disconnected) or [max_errors] consecutive errors. *)
Fixpoint receive_loop (st : RxState) (polls : list PollResp) : RxState :=
  match polls with
  | [] => st
  | p :: rest =>
      let st' := poll_once st p in
      if max_errors <=? error_count st' then st' else receive_loop st' rest
  end.

(** Requests the driver sends to the relay (only the ones modelled). *)
Inductive HttpReq := ReqDeleteMessages.

Record NetDriver := mkNet {
  connected : bool; thread_alive : bool; last_timestamp : Z; requests : list HttpReq }.

(** [start_receive_thread]: the new thread starts [receive_loop] from
    [mkRx (last_timestamp d') 0 []]. *)
Definition start_receive_thread (d : NetDriver) : bool * NetDriver :=
  if negb (connected d) then (false, d)
  else if thread_alive d then (false, d)
  else (true, mkNet (connected d) true 0 (requests d ++ [ReqDeleteMessages])).

Definition rx_start (d : NetDriver) : RxState := mkRx (last_timestamp d) 0 [].

End NetRelay.

(** ** Bluetooth_Driver.py *)
Module Bluetooth.
Import NetRelay.

(** The Bluetooth [CANMessage]. *)
Record BtCANMessage := mkBt {
  bt_timestamp : Z; arbitration_id : Z; is_extended_id : bool;
  is_remote_frame : bool; bt_dlc : Z; bt_data : list Z }.

(** An element of the [messages] array of a streaming event. *)
Record BtMsg := mkBtMsg {
  b_timestamp : option Z; b_id : option IdVal; b_data_hex : option DataVal;
  b_data : option DataVal; b_is_extended : option bool; b_is_remote : option bool }.

Definition truthy (v : DataVal) : bool :=
  match v with DStr s => negb (String.eqb s "") | DList l => negb (Nat.eqb (length l) 0) end.

(** The ID part of [_parse_message]. *)
Definition parse_id (v : IdVal) : option Z :=
  match v with
  | IdInt n => Some n
  | IdStr s => if Text.startswith "0x" s then Text.int16 s else Text.int10 s
  end.

(** The data part of [_parse_message]. *)
Definition parse_data (v : DataVal) : option (list Z) :=
  match v with
  | DStr s => let h := Text.remove_spaces s in
              match h with [] => Some [] | _ => Text.fromhex h end
  | DList l => Text.bytes_of_list l
  end.

(** [_parse_message]; [None] when it catches an exception.  [time_now] is
    [time.time()]. *)
Definition parse_message (m : BtMsg) (time_now : Z) : option BtCANMessage :=
  match parse_id (get (b_id m) (IdInt 0)) with
  | None => None
  | Some arb_id =>
      let dv := match b_data_hex m with
                | Some v => if truthy v then v else get (b_data m) (DStr "")
                | None => get (b_data m) (DStr "")
                end in
      match parse_data dv with
      | None => None
      | Some d =>
          Some (mkBt (get (b_timestamp m) time_now) arb_id
                     (get (b_is_extended m) (0x7FF <? arb_id))
                     (get (b_is_remote m) false) (Z.of_nat (length d)) d)
      end
  end.

(** [_process_messages]: the frames passed to [self._message_callback]
    (nothing without a callback), each message parsed at its own
    [time.time()]; a message [_parse_message] rejects is skipped. *)
Definition process_messages (has_callback : bool) (messages : list (BtMsg * Z))
    : list BtCANMessage :=
  if has_callback then
    fold_right (fun mt acc => match parse_message mt.1 mt.2 with
                              | Some c => c :: acc
                              | None => acc
                              end) [] messages
  else [].

(** *** [_receive_loop]

    [data.decode('utf-8', errors='ignore')] on one received chunk: the text
    is a list of code points.  A lead byte announces its number of
    continuation bytes and the range allowed for the first of them (no
    overlong forms, no surrogates, nothing above 0x10FFFF). *)
Definition utf8_lead (b : Z) : option (nat * Z * Z) :=
  if (0xC2 <=? b) && (b <=? 0xDF) then Some (1%nat, 0x80, 0xBF)
  else if b =? 0xE0 then Some (2%nat, 0xA0, 0xBF)
  else if (0xE1 <=? b) && (b <=? 0xEC) then Some (2%nat, 0x80, 0xBF)
  else if b =? 0xED then Some (2%nat, 0x80, 0x9F)
  else if (0xEE <=? b) && (b <=? 0xEF) then Some (2%nat, 0x80, 0xBF)
  else if b =? 0xF0 then Some (3%nat, 0x90, 0xBF)
  else if (0xF1 <=? b) && (b <=? 0xF3) then Some (3%nat, 0x80, 0xBF)
  else if b =? 0xF4 then Some (3%nat, 0x80, 0x8F)
  else None.

(** The [n] continuation bytes 0x80..0xBF after the first one: [inl] the
    bytes and what follows them, or [inr] the data from the first byte that
    is not a continuation byte on (empty at the end of the data). *)
Fixpoint take_cont (n : nat) (l : list Z) : (list Z * list Z) + list Z :=
  match n with
  | O => inl ([], l)
  | S k =>
      match l with
      | [] => inr []
      | c :: r =>
          if (0x80 <=? c) && (c <=? 0xBF) then
            match take_cont k r with
            | inl (cs, rest) => inl (c :: cs, rest)
            | inr rest => inr rest
            end
          else inr l
      end
  end.

Definition lead_bits (n : nat) (b : Z) : Z :=
  match n with
  | 1%nat => Z.land b 0x1F
  | 2%nat => Z.land b 0x0F
  | _ => Z.land b 0x07
  end.

Definition code_point (n : nat) (b : Z) (cs : list Z) : Z :=
  fold_left (fun acc c => acc * 64 + Z.land c 0x3F) cs (lead_bits n b).

(** An ill-formed sequence is dropped up to the byte that breaks it, and
    decoding resumes there; an incomplete sequence at the end of the data
    is dropped.  Every step consumes a byte, so [length l] steps suffice. *)
Fixpoint utf8_decode_ignore (fuel : nat) (l : list Z) : list Z :=
  match fuel with
  | O => []
  | S f =>
      match l with
      | [] => []
      | b :: r =>
          if b <? 0x80 then b :: utf8_decode_ignore f r
          else
            match utf8_lead b with
            | None => utf8_decode_ignore f r
            | Some (n, lo, hi) =>
                match r with
                | [] => []
                | c1 :: r1 =>
                    if (lo <=? c1) && (c1 <=? hi) then
                      match take_cont (n - 1) r1 with
                      | inl (cs, rest) => code_point n b (c1 :: cs) :: utf8_decode_ignore f rest
                      | inr rest => utf8_decode_ignore f rest
                      end
                    else utf8_decode_ignore f r
                end
            end
      end
  end.

Definition decode (data : list Z) : list Z := utf8_decode_ignore (length data) data.

Definition newline : Z := 10.

(** [buffer.split('\n', 1)] on a buffer holding a newline. *)
Fixpoint split_first (b : list Z) : option (list Z * list Z) :=
  match b with
  | [] => None
  | c :: r => if c =? newline then Some ([], r)
              else option_map (fun p => (c :: fst p, snd p)) (split_first r)
  end.

(** [while '\n' in buffer: line, buffer = buffer.split('\n', 1)]; each
    iteration takes at least one character off the buffer. *)
Fixpoint split_lines (fuel : nat) (buf : list Z) : list (list Z) * list Z :=
  match fuel with
  | O => ([], buf)
  | S f =>
      match split_first buf with
      | None => ([], buf)
      | Some (line, rest) => let '(ls, b) := split_lines f rest in (line :: ls, b)
      end
  end.

(** [str.isspace]: the white space characters of Unicode. *)
Definition is_space (c : Z) : bool :=
  ((9 <=? c) && (c <=? 13)) || ((28 <=? c) && (c <=? 32)) || (c =? 0x85) || (c =? 0xA0)
  || (c =? 0x1680) || ((0x2000 <=? c) && (c <=? 0x200A)) || (c =? 0x2028) || (c =? 0x2029)
  || (c =? 0x202F) || (c =? 0x205F) || (c =? 0x3000).

Fixpoint lstrip (l : list Z) : list Z :=
  match l with
  | [] => []
  | c :: r => if is_space c then lstrip r else l
  end.

(** [line.strip()] *)
Definition strip (l : list Z) : list Z := rev (lstrip (rev (lstrip l))).

(** [self._handle_response(line)] on the lines in turn; [escapes l] says
    whether an exception escapes it on [l] (only [json.JSONDecodeError] is
    caught there), which the loop's [except Exception] turns into a
    [break].  The lines handed over, and whether the loop broke. *)
Fixpoint handle_lines (escapes : list Z -> bool) (ls : list (list Z)) : list (list Z) * bool :=
  match ls with
  | [] => ([], false)
  | l :: r =>
      if escapes l then ([l], true)
      else let '(h, st) := handle_lines escapes r in (l :: h, st)
  end.

(** One received chunk: it is decoded on its own and appended to
    [_response_buffer]; every complete line, stripped, goes to
    [_handle_response] when it is not empty.  The lines handed over, the
    buffer left, and whether the loop broke. *)
Definition receive_chunk (escapes : list Z -> bool) (buf chunk : list Z)
    : list (list Z) * list Z * bool :=
  let buf := buf ++ decode chunk in
  let '(ls, rest) := split_lines (length buf) buf in
  let '(h, st) := handle_lines escapes
                    (List.filter (fun l => match l with [] => false | _ => true end)
                       (List.map strip ls)) in
  (h, rest, st).

(** The loop over the results of [recv(8192)] (a [socket.timeout] yields
    none): an empty result ends it, as does an exception out of
    [_handle_response]; otherwise it goes on while results come (a stop
    request or an error ends the list).  The lines handed over, the buffer
    left, and whether the loop broke. *)
Fixpoint receive_lines (escapes : list Z -> bool) (buf : list Z) (chunks : list (list Z))
    : list (list Z) * list Z * bool :=
  match chunks with
  | [] => ([], buf, false)
  | [] :: _ => ([], buf, true)
  | c :: r =>
      let '(h, b, st) := receive_chunk escapes buf c in
      if st then (h, b, true)
      else let '(h2, b2, st2) := receive_lines escapes b r in (h ++ h2, b2, st2)
  end.

(** Complete lines, each ended by a newline. *)
Definition join_lines (ls : list (list Z)) : list Z :=
  concat (List.map (fun l => l ++ [newline]) ls).

End Bluetooth.

(** ** GUI_Master.py: the received-message table *)
Module Gui.

(** A decoded message as [_decode_message] returns it. *)
Record Decoded := mkDecoded { summary : string; signals : list (string * string * string) }.

(** A DBC message as the GUI uses it: its name, and cantools' [decode]
    followed by the GUI's formatting of each signal as
    [(name, value text, unit)] ([None] when decoding raises). *)
Record DbcMessage := mkDbc {
  dbc_name : string; dbc_decode : list Z -> option (list (string * string * string)) }.

(** The database, looked up with [get_message_by_frame_id]. *)
Definition Database := gmap Z DbcMessage.

(** A received message ([msg.id], [msg.data], [msg.is_extended], ...). *)
Record RxMsg := mkRxMsg {
  m_id : Z; m_data : list Z; m_is_extended : bool; m_is_remote : bool; m_dlc : Z }.

(** [lookup_id = can_id | 0x80000000 if is_extended else can_id] *)
Definition lookup_id (can_id : Z) (is_extended : bool) : Z :=
  if is_extended then Z.lor can_id 0x80000000 else can_id.

Definition plural (n : nat) : string := if Nat.eqb n 1 then "" else "s".

(** [_decode_message] *)
Definition decode_message (db : option Database) (can_id : Z) (data : list Z)
    (is_extended : bool) : option Decoded :=
  match db with
  | None => None
  | Some d =>
      match d !! lookup_id can_id is_extended with
      | None => None
      | Some msg =>
          match dbc_decode msg data with
          | None => None
          | Some sigs =>
              Some (mkDecoded (Fmt.dec (Z.of_nat (length sigs)) +:+ " signal"
                               +:+ plural (length sigs)) sigs)
          end
      end
  end.

(** [_get_message_name] *)
Definition get_message_name (db : option Database) (can_id : Z) (is_extended : bool)
    : option string :=
  match db with
  | None => None
  | Some d => option_map dbc_name (d !! lookup_id can_id is_extended)
  end.

(** One row of [self.message_data].  Times are microseconds;
    [period_us] is the last inter-arrival time, shown as
    [period_ms = round(period_us / 1000, 1)]. *)
Record Entry := mkEntry {
  e_id : Z; e_name : string; e_type : string; e_dlc : Z; e_data : list Z;
  e_decoded : option Decoded; e_count : Z; e_last_time : Z; e_period_us : Z }.

Record GuiState := mkGui {
  dbc_database : option Database; total_messages : Z; message_data : gmap Z Entry }.

Definition name_or_empty (o : option string) : string :=
  match o with Some n => n | None => "" end.

(** The table update of [_on_message_received] at time [current_time]. *)
Definition on_message_received (st : GuiState) (msg : RxMsg) (current_time : Z) : GuiState :=
  let decoded_info := decode_message (dbc_database st) (m_id msg) (m_data msg) (m_is_extended msg) in
  let message_name := get_message_name (dbc_database st) (m_id msg) (m_is_extended msg) in
  let md := message_data st in
  let row :=
    match md !! m_id msg with
    | Some e =>
        mkEntry (e_id e) (name_or_empty message_name) (e_type e) (m_dlc msg) (m_data msg)
                decoded_info (e_count e + 1) current_time (current_time - e_last_time e)
    | None =>
        let msg_type := (if m_is_extended msg then "EXT" else "STD")
                        +:+ (if m_is_remote msg then "-R" else "") in
        mkEntry (m_id msg) (name_or_empty message_name) msg_type (m_dlc msg) (m_data msg)
                decoded_info 1 current_time 0
    end in
  mkGui (dbc_database st) (total_messages st + 1) (<[m_id msg := row]> md).

(** *** The thermistor and cell-voltage tables *)







(** The table slot of the signal [Cell_<n>_Voltage] in
    [_update_cell_voltage_data]: [module_id = (n - 1) // 18],
    [cell_idx = (n - 1) % 18], kept when [0 <= module_id < 6] and
    [0 <= cell_idx < 18]. *)
Definition cell_slot (cell_num_global : Z) : option (Z * Z) :=
  let module_id := (cell_num_global - 1) / 18 in
  let cell_idx := (cell_num_global - 1) mod 18 in
  if (0 <=? module_id) && (module_id <? 6) && (0 <=? cell_idx) && (cell_idx <? 18)
  then Some (module_id, cell_idx) else None.

(** The messages received, in order, each with its [current_time]. *)
Definition receive_all (st : GuiState) (msgs : list (RxMsg * Z)) : GuiState :=
  fold_left (fun s mt => on_message_received s mt.1 mt.2) msgs st.

(** The sum of the [count] column of the message table. *)
Definition table_total (md : gmap Z Entry) : Z :=
  map_fold (fun _ e acc => e_count e + acc) 0 md.

End Gui.

(** ** webserver/backend/api.py *)
Module Api.

(** A DBC message as the backend uses it: name and decoded signals. *)
Record ApiDbcMessage := mkApiDbc {
  api_name : string; api_decode : list Z -> option (list (string * string)) }.

(** [lookup_id = can_id & 0x1FFFFFFF if is_extended else can_id] *)
Definition lookup_id (can_id : Z) (is_extended : bool) : Z :=
  if is_extended then Z.land can_id 0x1FFFFFFF else can_id.

(** [CANBackend.decode_message]: the message found and its signals. *)
Definition decode_message (db : option (gmap Z ApiDbcMessage)) (can_id : Z) (data : list Z)
    (is_extended : bool) : option (string * list (string * string)) :=
  match db with
  | None => None
  | Some d =>
      match d !! lookup_id can_id is_extended with
      | None => None
      | Some m => option_map (fun sigs => (api_name m, sigs)) (api_decode m data)
      end
  end.

(** *** Transmit lists *)

(** A signal value: [Union[int, float, str]]. *)
Inductive SigVal := SInt (n : Z) | SFloat (f : float) | SStr (s : string).

(** [TransmitListItem] *)
Record TransmitListItem := mkItem {
  item_id : string; can_id : Z; item_data : list Z; is_extended : bool;
  message_name : option string; item_signals : option (list (string * SigVal));
  description : option string }.

(** JSON documents as Python's [json] module reads and writes them;
    [json.load] of what [json.dump] wrote gives back the same tree. *)
#[local] Set Warnings "-register-all".
Inductive JVal :=
  | JNull | JBool (b : bool) | JInt (n : Z) | JFloat (f : float) | JStr (s : string)
  | JArr (l : list JVal) | JObj (kvs : list (string * JVal)).

Definition opt_str (o : option string) : JVal :=
  match o with Some s => JStr s | None => JNull end.

Definition sig_json (v : SigVal) : JVal :=
  match v with SInt n => JInt n | SFloat f => JFloat f | SStr s => JStr s end.

(** [item.dict()] *)
Definition item_dict (i : TransmitListItem) : JVal :=
  JObj [("id", JStr (item_id i)); ("can_id", JInt (can_id i));
        ("data", JArr (map JInt (item_data i))); ("is_extended", JBool (is_extended i));
        ("message_name", opt_str (message_name i));
        ("signals", match item_signals i with
                    | None => JNull
                    | Some kvs => JObj (map (fun kv => (kv.1, sig_json kv.2)) kvs)
                    end);
        ("description", opt_str (description i))].

(** [d.get(k)] on a JSON object (the last binding wins, as in [json.load]). *)
Definition jget (k : string) (kvs : list (string * JVal)) : option JVal :=
  fold_left (fun acc kv => if String.eqb kv.1 k then Some kv.2 else acc) kvs None.

Fixpoint all_some {A} (l : list (option A)) : option (list A) :=
  match l with
  | [] => Some []
  | Some x :: r => option_map (cons x) (all_some r)
  | None :: _ => None
  end.

(** Pydantic's validation of each field (values of other JSON types, which
    pydantic would coerce or reject, are rejected here). *)
Definition v_str (v : option JVal) : option string :=
  match v with Some (JStr s) => Some s | _ => None end.
Definition v_int (v : JVal) : option Z :=
  match v with JInt n => Some n | _ => None end.
Definition v_bool_default (v : option JVal) (d : bool) : option bool :=
  match v with None => Some d | Some (JBool b) => Some b | Some _ => None end.
Definition v_opt_str (v : option JVal) : option (option string) :=
  match v with None | Some JNull => Some None | Some (JStr s) => Some (Some s) | _ => None end.
Definition v_sig (v : JVal) : option SigVal :=
  match v with JInt n => Some (SInt n) | JFloat f => Some (SFloat f) | JStr s => Some (SStr s)
          | _ => None end.
Definition v_signals (v : option JVal) : option (option (list (string * SigVal))) :=
  match v with
  | None | Some JNull => Some None
  | Some (JObj kvs) =>
      option_map Some (all_some (map (fun kv => option_map (pair kv.1) (v_sig kv.2)) kvs))
  | Some _ => None
  end.

(** [TransmitListItem(...)] on one saved item dict. *)
Definition parse_item (v : JVal) : option TransmitListItem :=
  match v with
  | JObj kvs =>
      match v_str (jget "id" kvs), option_bind _ _ v_int (jget "can_id" kvs),
            (match jget "data" kvs with Some (JArr l) => all_some (map v_int l) | _ => None end),
            v_bool_default (jget "is_extended" kvs) false,
            v_opt_str (jget "message_name" kvs), v_signals (jget "signals" kvs),
            v_opt_str (jget "description" kvs) with
      | Some i, Some c, Some d, Some e, Some n, Some sg, Some ds => Some (mkItem i c d e n sg ds)
      | _, _, _, _, _, _, _ => None
      end
  | _ => None
  end.

(** [Path(p).stem] *)
Definition split_slash (l : list ascii) : list (list ascii) :=
  fold_right (fun c acc => if (c =? "/"%char)%char then [] :: acc
                           else match acc with a :: r => (c :: a) :: r | [] => [[c]] end)
             [[]] l.

Definition path_name (p : string) : list ascii :=
  let comps := filter (fun c => negb (bool_decide (c = [])) && negb (bool_decide (c = ["."%char])))
                      (split_slash (list_ascii_of_string p)) in
  match last comps with Some n => n | None => [] end.

(** [name.rfind('.')] *)
Fixpoint rfind_dot (l : list ascii) (i : nat) (acc : option nat) : option nat :=
  match l with
  | [] => acc
  | c :: r => rfind_dot r (S i) (if (c =? "."%char)%char then Some i else acc)
  end.

Definition stem (p : string) : string :=
  let name := path_name p in
  match rfind_dot name 0 None with
  | Some i => if (0 <? i)%nat && (i <? length name - 1)%nat
              then string_of_list_ascii (firstn i name) else string_of_list_ascii name
  | None => string_of_list_ascii name
  end.

(** The transmit-list directory: file name to the JSON document in it. *)
Definition Store := gmap string JVal.

Definition list_file (dbc_file : string) : string :=
  stem dbc_file +:+ "_transmit_list.json".

(** [save_transmit_list] *)
Definition save_transmit_list (store : Store) (items : list TransmitListItem) (dbc_file : string)
    : Store :=
  <[list_file dbc_file := JObj [("dbc_file", JStr dbc_file); ("items", JArr (map item_dict items))]]>
    store.

(** [load_transmit_list]: the items and the [dbc_file] of the response;
    [None] is the HTTP 500 raised when the file does not validate. *)
Definition load_transmit_list (store : Store) (dbc_file : string)
    : option (list TransmitListItem * string) :=
  match store !! list_file dbc_file with
  | None => Some ([], dbc_file)
  | Some (JObj doc) =>
      let items := match jget "items" doc with
                   | None => Some []
                   | Some (JArr l) => all_some (map parse_item l)
                   | Some _ => None
                   end in
      let dbc := match jget "dbc_file" doc with
                 | None => Some dbc_file
                 | Some (JStr s) => Some s
                 | Some _ => None
                 end in
      match items, dbc with
      | Some is, Some d => Some (is, d)
      | _, _ => None
      end
  | Some _ => None
  end.

End Api.

(** * Proofs *)

(** ** The flasher *)
Module FlasherProofs.
Import Flasher.

(** *** The response waits *)

Lemma poll_scan_continue {A} (t start timeout : Z) (step : Frame -> Step A) (dflt : A)
    (clk tm : Z) (m : Frame) (rest : list Poll) :
  step m = Continue -> clk - start < timeout ->
  poll_scan t start timeout step dflt clk ((tm, Some m) :: rest)
  = poll_scan t start timeout step dflt clk ((tm, None) :: rest).
Proof.
  intros Hs Hlive. simpl. apply Z.ltb_lt in Hlive. rewrite Hlive, Hs. reflexivity.
Qed.

(** What the wait loop of [_wait_response] can return: a frame from the
    bootloader ID that is not a heartbeat and has a first byte. *)
Lemma wait_scan_some (t start timeout clk : Z) (ib : list Poll) (r : Frame) (c : Z)
    (ib' : list Poll) :
  poll_scan t start timeout wait_step None clk ib = (Ok (Some r), c, ib') ->
  fr_id r = CAN_BOOTLOADER_ID /\ is_heartbeat (fr_data r) = false /\ fr_data r <> [].
Proof.
  revert clk. induction ib as [|[tm [m|]] rest IH]; intros clk H; simpl in H.
  - destruct (clk - start <? timeout); discriminate.
  - destruct (clk - start <? timeout); [|discriminate].
    destruct (wait_step m) as [|x] eqn:Hw; [apply (IH _ H)|].
    inversion H; subst x. unfold wait_step in Hw.
    destruct (fr_id m =? CAN_BOOTLOADER_ID) eqn:Hid; [|discriminate].
    destruct (is_heartbeat (fr_data m)) eqn:Hh; [discriminate|].
    destruct (fr_data m) eqn:Hd; [discriminate|].
    inversion Hw; subst r. apply Z.eqb_eq in Hid. rewrite Hd.
    repeat split; [exact Hid | exact Hh | discriminate].
  - destruct (clk - start <? timeout); [apply (IH _ H)|discriminate].
Qed.

Lemma wait_response_some (timeout : Z) (s s' : FState) (r : Frame) :
  wait_response timeout s = (Ok (Some r), s') ->
  fr_id r = CAN_BOOTLOADER_ID /\ is_heartbeat (fr_data r) = false /\ fr_data r <> [].
Proof.
  unfold wait_response, poll_loop.
  destruct (poll_scan 100 (now s) timeout wait_step None (now s) (inbox s)) as [[x c] ib] eqn:E.
  intros H. inversion H; subst x. eapply wait_scan_some; exact E.
Qed.

(** [C10] Every frame the response wait returns carries the target-to-host
    ID 0x18000700; a frame on any other ID is passed over by the response
    wait, by the SET_ADDRESS wait and by the post-reset READY wait exactly as
    if the poll had returned nothing, so it is never read as ACK, NACK,
    READY or DATA. *)
Theorem bootloader_id_filter (m : Frame) (Hm : fr_id m <> CAN_BOOTLOADER_ID) :
  (forall t start timeout clk tm rest, clk - start < timeout ->
     poll_scan t start timeout wait_step None clk ((tm, Some m) :: rest)
     = poll_scan t start timeout wait_step None clk ((tm, None) :: rest)) /\
  (forall t start timeout clk tm rest, clk - start < timeout ->
     poll_scan t start timeout setaddr_step false clk ((tm, Some m) :: rest)
     = poll_scan t start timeout setaddr_step false clk ((tm, None) :: rest)) /\
  (forall t start timeout clk tm rest, clk - start < timeout ->
     poll_scan t start timeout reset_step None clk ((tm, Some m) :: rest)
     = poll_scan t start timeout reset_step None clk ((tm, None) :: rest)) /\
  (forall timeout s s' r, wait_response timeout s = (Ok (Some r), s') ->
     fr_id r = CAN_BOOTLOADER_ID).
Proof.
  assert (Hid : (fr_id m =? CAN_BOOTLOADER_ID) = false) by (apply Z.eqb_neq; exact Hm).
  split; [|split; [|split]]; intros.
  - apply poll_scan_continue; [|assumption]. unfold wait_step. rewrite Hid. reflexivity.
  - apply poll_scan_continue; [|assumption]. unfold setaddr_step. rewrite Hid. reflexivity.
  - apply poll_scan_continue; [|assumption]. unfold reset_step. rewrite Hid. reflexivity.
  - eapply wait_response_some. eassumption.
Qed.

Lemma bootloader_id_filter_witness :
  fr_id (mkFrame 0x123 false [RESP_ACK]) <> CAN_BOOTLOADER_ID /\
  poll_scan 100 0 1000 wait_step None 0 [(5, Some (mkFrame 0x123 false [RESP_ACK]))]
  = poll_scan 100 0 1000 wait_step None 0 [(5, None)].
Proof.
  assert (H : fr_id (mkFrame 0x123 false [RESP_ACK]) <> CAN_BOOTLOADER_ID) by discriminate.
  split; [exact H|].
  exact (proj1 (bootloader_id_filter (mkFrame 0x123 false [RESP_ACK]) H) 100 0 1000 0 5 []
           ltac:(lia)).
Defined.

(** [C2] A frame from the bootloader ID with an empty payload reaches the
    debug line of [_wait_response] that formats [msg.data[0]] and raises
    [IndexError] instead of being returned as a response; in a flash it
    aborts the erase stage and [flash_firmware] fails. *)
Theorem wait_response_empty_payload :
  fst (wait_response 1000 (mkFS 0 [(10, Some (mkFrame CAN_BOOTLOADER_ID true []))] [] [] true))
  = Exc IndexError /\
  fst (flash_firmware "fw.bin" [1; 2; 3; 4] 0 true true 16
         (mkFS 0 [(10, Some (mkFrame CAN_BOOTLOADER_ID true [RESP_READY; 1; 0; 0; 0; 0; 0; 0]));
                  (600, Some (mkFrame CAN_BOOTLOADER_ID true []))] [] [] true))
  = Ok false.
Proof. split; vm_compute; reflexivity. Qed.

(** [C6] With the JUMP_TO_APP command sent, the jump succeeds when the
    500 ms response wait returns nothing or an ACK, and fails exactly when
    the response is a NACK (any other response also counts as success). *)
Theorem jump_outcome (s : FState) (Htx : tx_ok s = true) :
  fst (jump_to_application s) =
  match poll_scan 100 (now s) 500 wait_step None (now s) (inbox s) with
  | (Ok None, _, _) => Ok true
  | (Ok (Some r), _, _) => Ok (negb (hd 0 (fr_data r) =? RESP_NACK))
  | (Exc e, _, _) => Exc e
  end.
Proof.
  unfold jump_to_application, bind, report, send_command, to_bytes, send_message, ret.
  unfold add_event at 1. simpl. rewrite Htx. simpl.
  unfold wait_response, poll_loop. simpl.
  destruct (poll_scan 100 (now s) 500 wait_step None (now s) (inbox s)) as [[x c] ib] eqn:E.
  destruct x as [[r|]|e]; simpl; try reflexivity.
  destruct (wait_scan_some _ _ _ _ _ _ _ _ E) as [_ [_ Hne]].
  destruct (fr_data r) as [|b0 rest] eqn:Hd; [congruence|]. simpl.
  destruct (b0 =? RESP_ACK) eqn:Ha; simpl.
  - apply Z.eqb_eq in Ha. subst b0. reflexivity.
  - destruct (b0 =? RESP_NACK); reflexivity.
Qed.

Lemma jump_outcome_witness :
  tx_ok (mkFS 0 [(20, Some (mkFrame CAN_BOOTLOADER_ID true [RESP_NACK; 1; 0; 0; 0; 0; 0; 0]))] [] [] true) = true /\
  fst (jump_to_application
         (mkFS 0 [(20, Some (mkFrame CAN_BOOTLOADER_ID true [RESP_NACK; 1; 0; 0; 0; 0; 0; 0]))] [] [] true))
  = Ok false.
Proof.
  split; [reflexivity|].
  match goal with |- fst (jump_to_application ?s) = _ => rewrite (jump_outcome s eq_refl) end.
  vm_compute. reflexivity.
Defined.

End FlasherProofs.

Module ImageProofs.
Import Flasher.

Lemma take_upto_length (n : Z) (l : list Z) :
  0 <= n <= Z.of_nat (length l) -> Z.of_nat (length (take_upto n l)) = n.
Proof.
  revert n. induction l as [|x r IH]; intros n Hn; simpl in *.
  - lia.
  - destruct (n <=? 0) eqn:E.
    + apply Z.leb_le in E. simpl. lia.
    + apply Z.leb_gt in E. simpl. rewrite Nat2Z.inj_succ, (IH (n - 1)); lia.
Qed.

Lemma take_upto_prefix (n : Z) (l : list Z) : exists rest, l = take_upto n l ++ rest.
Proof.
  revert n. induction l as [|x r IH]; intros n; simpl.
  - exists []. reflexivity.
  - destruct (n <=? 0).
    + exists (x :: r). reflexivity.
    + destruct (IH (n - 1)) as [rest Hr]. exists rest. simpl. rewrite <- Hr. reflexivity.
Qed.

Lemma pad_shape (data : list Z) :
  pad_to_4byte_boundary data
  = data ++ repeat 255 (Z.to_nat ((4 - Z.of_nat (length data) mod 4) mod 4)).
Proof.
  unfold pad_to_4byte_boundary.
  destruct (0 <? (4 - Z.of_nat (length data) mod 4) mod 4) eqn:E; [reflexivity|].
  apply Z.ltb_ge in E.
  assert (Hp : (4 - Z.of_nat (length data) mod 4) mod 4 = 0).
  { pose proof (Z.mod_pos_bound (4 - Z.of_nat (length data) mod 4) 4). lia. }
  rewrite Hp. simpl. rewrite app_nil_r. reflexivity.
Qed.

Lemma padding_value (L : Z) :
  0 <= L -> (4 - L mod 4) mod 4 = if L mod 4 =? 0 then 0 else 4 - L mod 4.
Proof.
  intros HL. pose proof (Z.mod_pos_bound L 4 ltac:(lia)).
  destruct (L mod 4 =? 0) eqn:E.
  - apply Z.eqb_eq in E. rewrite E. reflexivity.
  - apply Z.eqb_neq in E. apply Z.mod_small. lia.
Qed.

Lemma pad_length (data : list Z) :
  Z.of_nat (length (pad_to_4byte_boundary data))
  = Z.of_nat (length data) + (4 - Z.of_nat (length data) mod 4) mod 4.
Proof.
  rewrite pad_shape, length_app, repeat_length, Nat2Z.inj_add, Z2Nat.id; [reflexivity|].
  pose proof (Z.mod_pos_bound (4 - Z.of_nat (length data) mod 4) 4). lia.
Qed.

Lemma pad_id (data : list Z) :
  Z.of_nat (length data) mod 4 = 0 -> pad_to_4byte_boundary data = data.
Proof. intros H. unfold pad_to_4byte_boundary. rewrite H. reflexivity. Qed.

Lemma truncation_text : Fmt.dec APP_MAX_SIZE = "212992".
Proof. vm_compute. reflexivity. Qed.

Lemma flash_prepare_big (file_name : string) (firmware_data : list Z) (s : FState) :
  APP_MAX_SIZE < Z.of_nat (length firmware_data) ->
  flash_prepare file_name firmware_data s
  = (Ok (take_upto APP_MAX_SIZE firmware_data),
     add_event (mkProgress "write" 0 "Truncating to 212992 bytes" 0 0)
       (add_event (mkProgress "write" 0 ("Loading " +:+ file_name +:+ "...") 0 0) s)).
Proof.
  intros Hbig.
  assert (Hlt : (APP_MAX_SIZE <? Z.of_nat (length firmware_data)) = true)
    by (apply Z.ltb_lt; exact Hbig).
  cbv beta iota zeta delta [flash_prepare report bind ret].
  rewrite Hlt, truncation_text.
  rewrite pad_id; [reflexivity|].
  rewrite take_upto_length; [reflexivity|unfold APP_MAX_SIZE in *; lia].
Qed.

(** [C5] [pad_to_4byte_boundary] appends 0xFF bytes up to the smallest
    multiple of 4 not below the input length, leaving the input as a
    prefix; and an image longer than 0x34000 bytes is cut to exactly its
    first 0x34000 bytes, a "Truncating to 212992 bytes" progress event is
    reported right after the loading event and before any protocol stage,
    and the flash continues with the truncated image. *)
Theorem pad_and_truncate (data : list Z) (file_name : string) (firmware_data : list Z)
    (module_number : Z) (verify jump : bool) (batch_size : Z) (s : FState)
    (Hbig : APP_MAX_SIZE < Z.of_nat (length firmware_data)) :
  pad_to_4byte_boundary data
  = data ++ repeat 255 (Z.to_nat ((4 - Z.of_nat (length data) mod 4) mod 4)) /\
  Z.of_nat (length (pad_to_4byte_boundary data)) mod 4 = 0 /\
  Z.of_nat (length data) <= Z.of_nat (length (pad_to_4byte_boundary data)) /\
  (forall m, m mod 4 = 0 -> Z.of_nat (length data) <= m ->
             Z.of_nat (length (pad_to_4byte_boundary data)) <= m) /\
  let img := take_upto APP_MAX_SIZE firmware_data in
  let s' := add_event (mkProgress "write" 0 "Truncating to 212992 bytes" 0 0)
              (add_event (mkProgress "write" 0 ("Loading " +:+ file_name +:+ "...") 0 0) s) in
  Z.of_nat (length img) = 0x34000 /\
  (exists rest, firmware_data = img ++ rest) /\
  flash_prepare file_name firmware_data s = (Ok img, s') /\
  flash_firmware file_name firmware_data module_number verify jump batch_size s
  = try_catch (flash_stages img module_number verify jump batch_size) flash_handler s'.
Proof.
  set (L := Z.of_nat (length data)).
  assert (HL : 0 <= L) by lia.
  pose proof (Z.mod_pos_bound L 4 ltac:(lia)) as Hb.
  pose proof (Z.div_mod L 4 ltac:(lia)) as Hdm.
  pose proof (padding_value L HL) as Hpv.
  split; [apply pad_shape|].
  split.
  { rewrite pad_length. fold L. rewrite Hpv.
    destruct (L mod 4 =? 0) eqn:E.
    - apply Z.eqb_eq in E. rewrite Z.add_0_r. exact E.
    - replace (L + (4 - L mod 4)) with ((L / 4 + 1) * 4) by lia. apply Z.mod_mul. lia. }
  split.
  { rewrite pad_length. fold L. pose proof (Z.mod_pos_bound (4 - L mod 4) 4). lia. }
  split.
  { intros m Hm HLm. rewrite pad_length. fold L. rewrite Hpv.
    pose proof (Z.div_mod m 4 ltac:(lia)) as Hmd.
    destruct (L mod 4 =? 0) eqn:E; [lia|]. apply Z.eqb_neq in E. lia. }
  cbv zeta.
  assert (Hprep := flash_prepare_big file_name firmware_data s Hbig).
  split; [rewrite take_upto_length; [reflexivity|unfold APP_MAX_SIZE in *; lia]|].
  split; [apply take_upto_prefix|].
  split; [exact Hprep|].
  unfold flash_firmware, try_catch. unfold bind at 1. rewrite Hprep. reflexivity.
Qed.

Lemma pad_and_truncate_witness :
  APP_MAX_SIZE < Z.of_nat (length (repeat 0 (Z.to_nat 212993))) /\
  Z.of_nat (length (take_upto APP_MAX_SIZE (repeat 0 (Z.to_nat 212993)))) = 0x34000.
Proof.
  assert (H : APP_MAX_SIZE < Z.of_nat (length (repeat 0 (Z.to_nat 212993)))).
  { rewrite repeat_length, Z2Nat.id by lia. unfold APP_MAX_SIZE. lia. }
  split; [exact H|].
  destruct (pad_and_truncate [] "fw.bin" (repeat 0 (Z.to_nat 212993)) 0 true true 16
              (mkFS 0 [] [] [] true) H) as (_ & _ & _ & _ & H5).
  exact (proj1 H5).
Defined.

(** [C4 counterexample] An empty image is not rejected: against a target
    that answers every command, flashing it succeeds. *)
Lemma empty_image_flashes :
  fst (flash_firmware "fw.bin" [] 0 true true 16 (mkFS 0 coop_empty [] [] true)) = Ok true.
Proof. vm_compute. reflexivity. Qed.

End ImageProofs.

Module NetRelayProofs.
Import NetRelay.

Definition ts_lt (a b : CANMessage) : Prop := timestamp a < timestamp b.
Definition ts_le (a b : ServerMsg) : Prop := ts_of a <= ts_of b.

Lemma parse_ok_shape (m : ServerMsg) (ts : Z) (c : CANMessage) :
  parse_message m ts = Ok c ->
  exists n raw, c = CANMessage_init n raw ts (get (sm_is_extended m) (0x7FF <? n))
                      (get (sm_is_remote m) false) (get (sm_dlc m) (Z.of_nat (length raw))).
Proof.
  unfold parse_message. cbv zeta.
  repeat case_match; intros Hr; inversion Hr; subst; eauto.
Qed.

Lemma parse_ok_timestamp (m : ServerMsg) (ts : Z) (c : CANMessage) :
  parse_message m ts = Ok c -> timestamp c = ts.
Proof. intros H. destruct (parse_ok_shape m ts c H) as (n & raw & ->). reflexivity. Qed.

Lemma parse_ok_dlc (m : ServerMsg) (ts : Z) (c : CANMessage) :
  parse_message m ts = Ok c ->
  dlc c = (let d := get (sm_dlc m) (Z.of_nat (length (data c))) in
           if d =? 0 then Z.of_nat (length (data c)) else d).
Proof. intros H. destruct (parse_ok_shape m ts c H) as (n & raw & ->). reflexivity. Qed.

(** What one [for] loop over a batch delivers: strictly increasing
    timestamps above the entry mark and up to the exit mark, each frame
    parsed from a message of the batch. *)
Lemma dispatch_spec (last : Z) (ms : list ServerMsg) :
  let '(l, cs, _) := dispatch last ms in
  last <= l /\ StronglySorted ts_lt cs /\ Forall (fun c => last < timestamp c <= l) cs /\
  Forall (fun c => exists m, In m ms /\ parse_message m (timestamp c) = Ok c) cs.
Proof.
  revert last. induction ms as [|m rest IH]; intros last; simpl.
  - repeat split; constructor || lia.
  - destruct (ts_of m <=? last) eqn:E.
    + specialize (IH last). destruct (dispatch last rest) as [[l cs] e].
      destruct IH as (H1 & H2 & H3 & H4). repeat split; auto.
      eapply Forall_impl; [exact H4|]. intros c (m' & Hin & Hp). eauto.
    + apply Z.leb_gt in E.
      destruct (parse_message m (ts_of m)) as [c|x] eqn:Hp.
      * specialize (IH (ts_of m)). destruct (dispatch (ts_of m) rest) as [[l cs] e].
        destruct IH as (H1 & H2 & H3 & H4).
        pose proof (parse_ok_timestamp _ _ _ Hp) as Hts.
        repeat split.
        -- lia.
        -- constructor; [exact H2|]. eapply Forall_impl; [exact H3|].
           intros c' Hc'. cbv beta in Hc'. unfold ts_lt. lia.
        -- constructor; [lia|]. eapply Forall_impl; [exact H3|]. intros c' Hc'. cbv beta in Hc'. lia.
        -- constructor; [exists m; rewrite Hts; auto|].
           eapply Forall_impl; [exact H4|]. intros c' (m' & Hin & Hp'). eauto.
      * repeat split; constructor || lia.
Qed.

Lemma StronglySorted_app {A} (R : A -> A -> Prop) (l1 l2 : list A) :
  StronglySorted R l1 -> StronglySorted R l2 ->
  (forall x y, In x l1 -> In y l2 -> R x y) -> StronglySorted R (l1 ++ l2).
Proof.
  induction l1 as [|x r IH]; intros H1 H2 H12; simpl; [exact H2|].
  apply StronglySorted_inv in H1 as [Hr Hx].
  constructor.
  - apply IH; auto. intros a b Ha Hb. apply H12; simpl; auto.
  - apply Forall_app; split; [exact Hx|].
    apply List.Forall_forall. intros y Hy. apply H12; simpl; auto.
Qed.

Lemma StronglySorted_ts_NoDup (l : list CANMessage) : StronglySorted ts_lt l -> NoDup l.
Proof.
  induction l as [|x r IH]; intros H; [constructor|].
  apply StronglySorted_inv in H as [Hr Hx]. constructor; [|auto].
  intros Hin. apply list_elem_of_In in Hin. rewrite List.Forall_forall in Hx. specialize (Hx x Hin). unfold ts_lt in Hx. lia.
Qed.

Lemma receive_loop_invariant (I : RxState -> Prop) :
  (forall st p, I st -> I (poll_once st p)) ->
  forall polls st, I st -> I (receive_loop st polls).
Proof.
  intros Hstep polls. induction polls as [|p rest IH]; intros st Hst; simpl; [exact Hst|].
  destruct (max_errors <=? error_count (poll_once st p)); auto.
Qed.

(** The delivery invariant of the receive thread started with mark [m0]. *)
Definition rx_inv (m0 : Z) (st : RxState) : Prop :=
  m0 <= last_ts st /\ StronglySorted ts_lt (delivered st) /\
  Forall (fun c => m0 < timestamp c <= last_ts st) (delivered st).

Lemma poll_once_inv (m0 : Z) (st : RxState) (p : PollResp) :
  rx_inv m0 st -> rx_inv m0 (poll_once st p).
Proof.
  intros (H0 & Hs & Hf). destruct p as [[|] ms| | | |]; simpl; try (repeat split; assumption).
  pose proof (dispatch_spec (last_ts st) (sort_by_ts ms)) as D.
  destruct (dispatch (last_ts st) (sort_by_ts ms)) as [[l cs] e].
  destruct D as (D1 & D2 & D3 & _).
  unfold rx_inv; simpl. repeat split.
  - lia.
  - apply StronglySorted_app; auto.
    intros x y Hx Hy. rewrite List.Forall_forall in Hf, D3.
    specialize (Hf x Hx). specialize (D3 y Hy). unfold ts_lt. lia.
  - apply Forall_app; split.
    + eapply Forall_impl; [exact Hf|]. intros c Hc. cbv beta in Hc |- *. lia.
    + eapply Forall_impl; [exact D3|]. intros c Hc. cbv beta in Hc |- *. lia.
Qed.

Lemma insert_HdRel (a x : ServerMsg) (l : list ServerMsg) :
  HdRel ts_le a l -> ts_le a x -> HdRel ts_le a (insert_by_ts x l).
Proof.
  destruct l as [|y r]; intros Ha Hx; simpl; [constructor; exact Hx|].
  destruct (ts_of y <=? ts_of x); constructor; [inversion Ha; assumption | exact Hx].
Qed.

Lemma insert_sorted (x : ServerMsg) (l : list ServerMsg) :
  Sorted ts_le l -> Sorted ts_le (insert_by_ts x l).
Proof.
  induction l as [|y r IH]; intros H; simpl; [repeat constructor|].
  destruct (ts_of y <=? ts_of x) eqn:E.
  - apply Sorted_inv in H as [Hr Hy]. constructor; [auto|].
    apply insert_HdRel; [exact Hy|]. unfold ts_le. apply Z.leb_le. exact E.
  - constructor; [exact H|]. constructor. unfold ts_le. apply Z.leb_gt in E. lia.
Qed.

Lemma insert_perm (x : ServerMsg) (l : list ServerMsg) :
  Permutation (x :: l) (insert_by_ts x l).
Proof.
  induction l as [|y r IH]; simpl; [reflexivity|].
  destruct (ts_of y <=? ts_of x); [|reflexivity].
  rewrite <- IH. constructor.
Qed.

Lemma sort_by_ts_spec (ms : list ServerMsg) :
  Sorted ts_le (sort_by_ts ms) /\ Permutation ms (sort_by_ts ms).
Proof.
  unfold sort_by_ts.
  assert (G : forall acc, Sorted ts_le acc ->
            Sorted ts_le (fold_left (fun acc x => insert_by_ts x acc) ms acc) /\
            Permutation (ms ++ acc) (fold_left (fun acc x => insert_by_ts x acc) ms acc)).
  { induction ms as [|x r IH]; intros acc Hacc; simpl; [split; [exact Hacc|reflexivity]|].
    destruct (IH (insert_by_ts x acc) (insert_sorted x acc Hacc)) as [Hs Hp].
    split; [exact Hs|]. rewrite <- Hp, <- insert_perm. apply Permutation_middle. }
  destruct (G [] (Sorted_nil _)) as [Hs Hp]. rewrite app_nil_r in Hp. auto.
Qed.

(** [C3] Starting the receive thread sends one [DELETE /api/messages] and
    sets the high-water mark to 0; every batch is sorted by timestamp (a
    stable reordering of the batch) before dispatch; and whatever the
    relay answers, the frames the thread hands to the receive callback
    have strictly increasing timestamps, all above 0, and none is
    delivered twice. *)
Theorem receive_thread_monotone (d d' : NetDriver) (polls : list PollResp)
    (Hstart : start_receive_thread d = (true, d')) :
  last_timestamp d' = 0 /\ requests d' = requests d ++ [ReqDeleteMessages] /\
  (forall ms, Sorted (fun a b => ts_of a <= ts_of b) (sort_by_ts ms) /\
              Permutation ms (sort_by_ts ms)) /\
  let out := delivered (receive_loop (rx_start d') polls) in
  StronglySorted (fun a b => timestamp a < timestamp b) out /\ NoDup out /\
  Forall (fun c => 0 < timestamp c) out.
Proof.
  unfold start_receive_thread in Hstart.
  destruct (connected d) eqn:Ec; simpl in Hstart; [|discriminate].
  destruct (thread_alive d); [discriminate|].
  injection Hstart as <-. simpl.
  split; [reflexivity|]. split; [reflexivity|]. split; [exact sort_by_ts_spec|].
  assert (Hinv : rx_inv 0 (receive_loop (mkRx 0 0 []) polls)).
  { apply receive_loop_invariant; [apply poll_once_inv|].
    unfold rx_inv; simpl. repeat constructor. lia. }
  destruct Hinv as (_ & Hs & Hf). split; [exact Hs|]. split.
  - apply StronglySorted_ts_NoDup. exact Hs.
  - eapply Forall_impl; [exact Hf|]. intros c Hc. cbv beta in Hc |- *. lia.
Qed.

Lemma receive_thread_monotone_witness :
  start_receive_thread (mkNet true false 7 []) = (true, mkNet true true 0 [ReqDeleteMessages]) /\
  last_timestamp (mkNet true true 0 [ReqDeleteMessages]) = 0.
Proof.
  assert (H : start_receive_thread (mkNet true false 7 [])
              = (true, mkNet true true 0 [ReqDeleteMessages])) by reflexivity.
  split; [exact H|].
  exact (proj1 (receive_thread_monotone _ _ [] H)).
Defined.

(** Sample relay messages. *)
Definition msg_str_id : ServerMsg :=
  mkServerMsg (Some 1) (Some (IdStr "0x100")) (Some (DList [1])) None None None None.
Definition msg_int_id : ServerMsg :=
  mkServerMsg (Some 1) (Some (IdInt 256)) (Some (DList [1])) None None None None.

(** [C7] The relay parser does not accept a hex-string ID: for the
    message {"id": "0x100", "data": [1], "timestamp": 1} the comparison
    [msg_id > 0x7FF] raises [TypeError], where the integer form 256 parses;
    the exception ends the batch, nothing is delivered and the error count
    rises.  The Bluetooth parser maps both forms to 256, and both parsers
    map the byte array [1; 2] and the hex string "01 02" to the same bytes. *)
Theorem relay_hex_string_id :
  parse_message msg_str_id 1 = Exc TypeError /\
  parse_message msg_int_id 1 = Ok (mkCANMessage 256 [1] 1 false false 1) /\
  poll_once (mkRx 0 0 []) (HttpOk true [msg_str_id]) = mkRx 1 1 [] /\
  poll_once (mkRx 0 0 []) (HttpOk true [msg_int_id]) = mkRx 1 0 [mkCANMessage 256 [1] 1 false false 1] /\
  Bluetooth.parse_id (IdStr "0x100") = Some 256 /\ Bluetooth.parse_id (IdInt 256) = Some 256 /\
  (forall m ts, sm_id m = Some (IdInt 0x123) -> sm_data_hex m = None ->
     (sm_data m = Some (DList [1; 2]) \/ sm_data m = Some (DStr "01 02")) ->
     option_map data (match parse_message m ts with Ok c => Some c | Exc _ => None end)
     = Some [1; 2]) /\
  Bluetooth.parse_data (DList [1; 2]) = Some [1; 2] /\
  Bluetooth.parse_data (DStr "01 02") = Some [1; 2] /\
  Bluetooth.parse_data (DStr "0102") = Some [1; 2].
Proof.
  split; [reflexivity|]. split; [reflexivity|]. split; [reflexivity|].
  split; [reflexivity|]. split; [reflexivity|]. split; [reflexivity|].
  split; [|repeat split; reflexivity].
  intros m ts Hid Hhex Hd. unfold parse_message. rewrite Hid, Hhex.
  destruct Hd as [Hd|Hd]; rewrite Hd; reflexivity.
Qed.

(** Sample batch: a message whose server [dlc] (8) differs from its two
    data bytes, and a nine-byte message without [dlc]. *)
Definition msg_dlc8 : ServerMsg :=
  mkServerMsg (Some 1) (Some (IdInt 0x100)) (Some (DList [1; 2])) None None None (Some 8).
Definition msg_nine : ServerMsg :=
  mkServerMsg (Some 2) (Some (IdInt 0x101)) (Some (DList [1; 2; 3; 4; 5; 6; 7; 8; 9]))
    None None None None.

(** [C8 counterexample] The receive path delivers a frame with [dlc] 8
    and two data bytes, and a frame with nine data bytes. *)
Lemma dlc_mismatch_delivered :
  map (fun c => (dlc c, Z.of_nat (length (data c))))
    (delivered (receive_loop (mkRx 0 0 []) [HttpOk true [msg_dlc8; msg_nine]]))
  = [(8, 2); (9, 9)].
Proof. reflexivity. Qed.

(** [C8] [CANMessage.__post_init__] sets [dlc] to the data length only
    when it is 0; for every frame the receive loop delivers, [dlc] is the
    server's [dlc] field when present and non-zero, and the data length
    otherwise; no bound on the data length is imposed. *)
Theorem delivered_dlc (st0 : Z) (polls : list PollResp) :
  (forall i d t e r, dlc (CANMessage_init i d t e r 0) = Z.of_nat (length d)) /\
  Forall (fun c => exists m,
            parse_message m (timestamp c) = Ok c /\
            dlc c = (let dd := get (sm_dlc m) (Z.of_nat (length (data c))) in
                     if dd =? 0 then Z.of_nat (length (data c)) else dd))
    (delivered (receive_loop (mkRx st0 0 []) polls)).
Proof.
  split; [reflexivity|].
  apply (receive_loop_invariant
           (fun st => Forall (fun c => exists m, parse_message m (timestamp c) = Ok c /\
                        dlc c = (let dd := get (sm_dlc m) (Z.of_nat (length (data c))) in
                                 if dd =? 0 then Z.of_nat (length (data c)) else dd))
                        (delivered st))); [|constructor].
  intros st p Hst. destruct p as [[|] ms| | | |]; simpl; try exact Hst.
  pose proof (dispatch_spec (last_ts st) (sort_by_ts ms)) as D.
  destruct (dispatch (last_ts st) (sort_by_ts ms)) as [[l cs] e].
  destruct D as (_ & _ & _ & D4). simpl. apply Forall_app; split; [exact Hst|].
  eapply Forall_impl; [exact D4|]. intros c (m & _ & Hp).
  exists m. split; [exact Hp|]. exact (parse_ok_dlc _ _ _ Hp).
Qed.

End NetRelayProofs.

Module GuiApiProofs.







Import Api.

Lemma all_some_map_Some {A} (l : list A) : all_some (map Some l) = Some l.
Proof. induction l as [|x r IH]; simpl; [reflexivity|]. rewrite IH. reflexivity. Qed.

Lemma data_roundtrip (l : list Z) : all_some (map v_int (map JInt l)) = Some l.
Proof. induction l as [|x r IH]; simpl; [reflexivity|]. rewrite IH. reflexivity. Qed.

Lemma signals_roundtrip (kvs : list (string * SigVal)) :
  all_some (map (fun kv => option_map (pair kv.1) (v_sig kv.2))
                (map (fun kv => (kv.1, sig_json kv.2)) kvs)) = Some kvs.
Proof.
  induction kvs as [|[k v] r IH]; simpl; [reflexivity|].
  rewrite IH. destruct v; reflexivity.
Qed.

Lemma opt_str_roundtrip (o : option string) : v_opt_str (Some (opt_str o)) = Some o.
Proof. destruct o; reflexivity. Qed.

Lemma parse_item_dict (i : TransmitListItem) : parse_item (item_dict i) = Some i.
Proof.
  destruct i as [iid cid dat ext nm sg ds]. unfold parse_item, item_dict. simpl.
  rewrite data_roundtrip.
  destruct nm, ds, sg as [kvs|]; simpl; rewrite ?signals_roundtrip; reflexivity.
Qed.

Lemma items_roundtrip (items : list TransmitListItem) :
  all_some (map parse_item (map item_dict items)) = Some items.
Proof.
  induction items as [|i r IH]; [reflexivity|].
  cbn [map]. rewrite parse_item_dict. cbn [all_some]. rewrite IH. reflexivity.
Qed.

(** [C9] Saving a transmit list for [dbc_file] and loading it back for
    any DBC path with the same stem gives back the same items, in order
    and field for field (the extended flag included), together with the
    saved [dbc_file]. *)
Theorem transmit_list_roundtrip (store : Store) (items : list TransmitListItem)
    (dbc_file dbc_file' : string) (Hstem : stem dbc_file' = stem dbc_file) :
  load_transmit_list (save_transmit_list store items dbc_file) dbc_file' = Some (items, dbc_file).
Proof.
  unfold load_transmit_list, save_transmit_list.
  replace (list_file dbc_file') with (list_file dbc_file) by (unfold list_file; rewrite Hstem; reflexivity).
  rewrite (lookup_insert_eq (M:=gmap string) (store : gmap string JVal)). simpl. rewrite items_roundtrip. reflexivity.
Qed.

Definition sample_item : TransmitListItem :=
  mkItem "1" 0x18FF0001 [1; 2; 3] true (Some "EngineData")
    (Some [("rpm", SInt 1200); ("load", SFloat 0.5%float); ("mode", SStr "run")]) None.

Lemma transmit_list_roundtrip_witness :
  stem "dbc/car.dbc" = stem "car.dbc" /\
  load_transmit_list (save_transmit_list ∅ [sample_item] "car.dbc") "dbc/car.dbc"
  = Some ([sample_item], "car.dbc").
Proof.
  assert (H : stem "dbc/car.dbc" = stem "car.dbc") by reflexivity.
  split; [exact H|]. exact (transmit_list_roundtrip ∅ [sample_item] "car.dbc" "dbc/car.dbc" H).
Defined.

End GuiApiProofs.

Module FlasherExtras.
Import Flasher.

(** *** Effects on the frames sent *)

Local Abbreviation keeps c :=
  (forall s, sent (snd (c s)) = sent s /\ tx_ok (snd (c s)) = tx_ok s).

Lemma bind_ok {A B} (c : M A) (k : A -> M B) (s s' : FState) (x : B) :
  bind c k s = (Ok x, s') -> exists a s1, c s = (Ok a, s1) /\ k a s1 = (Ok x, s').
Proof.
  unfold bind. destruct (c s) as [[a|e] s1]; intros H; [|discriminate].
  exists a, s1. split; [reflexivity|exact H].
Qed.

Lemma keeps_bind {A B} (c : M A) (k : A -> M B) :
  keeps c -> (forall a, keeps (k a)) -> keeps (bind c k).
Proof.
  intros Hc Hk s. unfold bind. specialize (Hc s).
  destruct (c s) as [[a|e] s1]; simpl in *; [|exact Hc].
  destruct (Hk a s1) as [H1 H2]. rewrite H1, H2. exact Hc.
Qed.

Lemma keeps_ret {A} (a : A) : keeps (ret a).
Proof. intros s. split; reflexivity. Qed.

Lemma keeps_raise {A} (e : PyExc) : keeps (@raise A e).
Proof. intros s. split; reflexivity. Qed.

Lemma keeps_report st p m b t : keeps (report st p m b t).
Proof. intros s. split; reflexivity. Qed.

Lemma keeps_get_now : keeps get_now.
Proof. intros s. split; reflexivity. Qed.

Lemma keeps_byte_at l i : keeps (byte_at l i).
Proof. intros s. unfold byte_at. destruct (nth_error l i); split; reflexivity. Qed.

Lemma keeps_poll_loop {A} t timeout (step : Frame -> Step A) dflt :
  keeps (poll_loop t timeout step dflt).
Proof.
  intros s. unfold poll_loop.
  destruct (poll_scan t (now s) timeout step dflt (now s) (inbox s)) as [[r c] ib].
  split; reflexivity.
Qed.

Lemma keeps_drain t : keeps (drain t).
Proof.
  intros s. unfold drain. destruct (drain_scan t (now s) (inbox s)) as [[c clk] ib].
  split; reflexivity.
Qed.

Lemma keeps_wait_response t : keeps (wait_response t).
Proof. apply keeps_poll_loop. Qed.

Lemma keeps_rpa fuel e t st ack : keeps (rpa_loop fuel e t st ack).
Proof.
  revert ack. induction fuel as [|f IH]; intros ack; simpl;
    apply keeps_bind; try apply keeps_get_now; intros clk;
    (destruct ((ack <? e) && (clk - st <? t)); [|apply keeps_ret]).
  - apply keeps_raise.
  - apply keeps_bind; [apply keeps_wait_response|]. intros [r|]; [|apply keeps_ret].
    apply keeps_bind; [apply keeps_byte_at|]. intros b0.
    destruct (b0 =? RESP_ACK); [apply IH|].
    destruct (b0 =? RESP_NACK); [|apply IH].
    apply keeps_bind; [apply keeps_report|]. intros _. apply keeps_ret.
Qed.

Lemma keeps_read_pending_acks e t : keeps (read_pending_acks e t).
Proof. intros s. apply keeps_rpa. Qed.

Lemma to_bytes_ok (l : list Z) (s : FState) :
  List.Forall (fun b => 0 <= b < 256) l -> to_bytes l s = (Ok l, s).
Proof.
  intros Hl. unfold to_bytes.
  replace (forallb (fun b => (0 <=? b) && (b <? 256)) l) with true; [reflexivity|].
  symmetry. apply forallb_forall. intros x Hx.
  rewrite List.Forall_forall in Hl. specialize (Hl x Hx).
  apply andb_true_iff. split; [apply Z.leb_le | apply Z.ltb_lt]; lia.
Qed.

Lemma to_bytes_bad (l : list Z) (s : FState) :
  ~ List.Forall (fun b => 0 <= b < 256) l -> to_bytes l s = (Exc ValueError, s).
Proof.
  intros Hl. unfold to_bytes.
  destruct (forallb (fun b => (0 <=? b) && (b <? 256)) l) eqn:E; [|reflexivity].
  exfalso. apply Hl. apply List.Forall_forall. intros x Hx.
  rewrite forallb_forall in E. specialize (E x Hx).
  apply andb_true_iff in E as [E1 E2]. apply Z.leb_le in E1. apply Z.ltb_lt in E2. lia.
Qed.

Lemma command_payload (c : Z) (d : list Z) :
  firstn 8 ((c :: d) ++ repeat 0 (8 - length (c :: d)))
  = firstn 8 (c :: d) ++ repeat 0 (7 - length d).
Proof.
  rewrite firstn_app. f_equal.
  rewrite firstn_all2 by (rewrite repeat_length; lia). reflexivity.
Qed.

Lemma send_command_ok (c : Z) (d : list Z) (s : FState) :
  tx_ok s = true -> List.Forall (fun b => 0 <= b < 256) (firstn 8 (c :: d) ++ repeat 0 (7 - length d)) ->
  send_command c d s
  = (Ok true, add_sent (mkFrame CAN_HOST_ID true (firstn 8 (c :: d) ++ repeat 0 (7 - length d))) s).
Proof.
  intros Htx Hb. unfold send_command. cbv zeta. rewrite command_payload.
  unfold bind. rewrite (to_bytes_ok _ _ Hb). unfold send_message. rewrite Htx. reflexivity.
Qed.

Lemma land255_byte (x : Z) : 0 <= Z.land x 255 < 256.
Proof.
  change 255 with (Z.ones 8). rewrite Z.land_ones by lia.
  apply Z.mod_pos_bound. lia.
Qed.

Ltac byte_list :=
  simpl;
  repeat match goal with H : List.Forall _ (_ :: _) |- _ => inversion H; subst; clear H end;
  repeat apply List.Forall_cons; try apply List.Forall_nil;
  first [apply land255_byte | assumption | unfold CMD_SET_ADDRESS, CMD_WRITE_DATA, CMD_READ_FLASH, CMD_ERASE_FLASH; lia].

Lemma byte_recombine (a : Z) :
  0 <= a < 2 ^ 32 ->
  Z.land (Z.shiftr a 24) 255 * 2 ^ 24 + Z.land (Z.shiftr a 16) 255 * 2 ^ 16
  + Z.land (Z.shiftr a 8) 255 * 2 ^ 8 + Z.land a 255 = a.
Proof.
  intros Ha. change 255 with (Z.ones 8). rewrite !Z.land_ones by lia.
  rewrite !Z.shiftr_div_pow2 by lia.
  change (2 ^ 8) with 256 in *. change (2 ^ 16) with 65536 in *.
  change (2 ^ 24) with 16777216 in *. change (2 ^ 32) with 4294967296 in *.
  assert (E1 : a = 256 * (a / 256) + a mod 256) by (apply Z.div_mod; lia).
  assert (E2 : a / 256 = 256 * (a / 65536) + (a / 256) mod 256).
  { replace (a / 65536) with (a / 256 / 256) by (rewrite Z.div_div by lia; reflexivity).
    apply Z.div_mod; lia. }
  assert (E3 : a / 65536 = 256 * (a / 16777216) + (a / 65536) mod 256).
  { replace (a / 16777216) with (a / 65536 / 256) by (rewrite Z.div_div by lia; reflexivity).
    apply Z.div_mod; lia. }
  assert (E4 : (a / 16777216) mod 256 = a / 16777216).
  { apply Z.mod_small. split; [apply Z.div_pos; lia|].
    apply Z.div_lt_upper_bound; lia. }
  lia.
Qed.

Lemma bind_step {A B} (c : M A) (k : A -> M B) (s s1 : FState) (a : A) :
  c s = (Ok a, s1) -> bind c k s = k a s1.
Proof. unfold bind. intros H. rewrite H. reflexivity. Qed.

Lemma report_step st p m b t (s : FState) :
  report st p m b t s = (Ok tt, add_event (mkProgress st p m b t) s).
Proof. reflexivity. Qed.

Lemma send_message_ok id d ext (s : FState) :
  tx_ok s = true -> send_message id d ext s = (Ok true, add_sent (mkFrame id ext d) s).
Proof. intros H. unfold send_message. rewrite H. reflexivity. Qed.

Lemma drain_ok t (s : FState) : exists c s1, drain t s = (Ok c, s1).
Proof.
  unfold drain. destruct (drain_scan t (now s) (inbox s)) as [[c clk] ib].
  exists c, (set_clock clk ib s). reflexivity.
Qed.

Lemma set_address_effect (address : Z) (s : FState) :
  tx_ok s = true ->
  sent (snd (set_address address s)) = sent s ++ [set_address_frame address] /\
  tx_ok (snd (set_address address s)) = true.
Proof.
  intros Htx. unfold set_address.
  destruct (drain_ok 10 s) as [c [s1 Ed]].
  destruct (keeps_drain 10 s) as [Hs1 Ht1]. rewrite Ed in Hs1, Ht1. simpl in Hs1, Ht1.
  rewrite (bind_step _ _ _ _ _ Ed). cbv zeta.
  erewrite bind_step
    by (apply send_command_ok; [congruence | byte_list]).
  cbn [negb].
  match goal with |- context [poll_loop ?a ?b ?c ?d ?s2] =>
    destruct (keeps_poll_loop a b c d s2) as [H1 H2]; rewrite H1, H2 end.
  simpl. rewrite Hs1. split; [reflexivity | congruence].
Qed.

Lemma write_4bytes_ok (data : list Z) (s : FState) :
  length data = 4%nat -> List.Forall (fun b => 0 <= b < 256) data -> tx_ok s = true ->
  write_4bytes data false s = (Ok true, add_sent (write_data_frame data) s).
Proof.
  intros Hl Hb Htx.
  destruct data as [|a [|b [|c [|d [|e r]]]]]; simpl in Hl; try discriminate.
  unfold write_4bytes. cbn [length Nat.eqb negb].
  erewrite bind_step
    by (apply send_command_ok; [exact Htx | byte_list]).
  reflexivity.
Qed.

(** [X1] [_send_command] puts one 8-byte frame on the host ID: the command
    byte, then the data cut to 7 bytes, then zeros.  A driver refusing the
    frame gives [False] and sends nothing; a value outside 0..255 raises
    [ValueError] before anything is sent. *)
Theorem send_command_frame (command : Z) (data : list Z) (s : FState) :
  let msg := firstn 8 (command :: data) ++ repeat 0 (7 - length data) in
  length msg = 8%nat /\
  (List.Forall (fun b => 0 <= b < 256) msg ->
     send_command command data s =
     if tx_ok s then (Ok true, add_sent (mkFrame CAN_HOST_ID true msg) s) else (Ok false, s)) /\
  (~ List.Forall (fun b => 0 <= b < 256) msg ->
     send_command command data s = (Exc ValueError, s)).
Proof.
  cbv zeta. split; [|split].
  - rewrite length_app, length_firstn, repeat_length. simpl length. lia.
  - intros Hb. unfold send_command. cbv zeta. rewrite command_payload.
    unfold bind. rewrite (to_bytes_ok _ _ Hb). unfold send_message.
    destruct (tx_ok s); reflexivity.
  - intros Hb. unfold send_command. cbv zeta. rewrite command_payload.
    unfold bind. rewrite (to_bytes_bad _ _ Hb). reflexivity.
Qed.

(** [X2] [set_address] sends exactly one frame, SET_ADDRESS with the
    address in big-endian byte order, whatever the ACK wait then does; for a
    32-bit address the four bytes put back together give the address. *)
Theorem set_address_big_endian (address : Z) (s : FState) (Htx : tx_ok s = true) :
  sent (snd (set_address address s)) = sent s ++ [set_address_frame address] /\
  (0 <= address < 2 ^ 32 ->
   let d := fr_data (set_address_frame address) in
   nth 0 d 0 = CMD_SET_ADDRESS /\
   nth 1 d 0 * 2 ^ 24 + nth 2 d 0 * 2 ^ 16 + nth 3 d 0 * 2 ^ 8 + nth 4 d 0 = address).
Proof.
  split; [exact (proj1 (set_address_effect address s Htx))|].
  intros Ha. simpl. split; [reflexivity|]. apply byte_recombine. exact Ha.
Qed.

Lemma set_address_big_endian_witness :
  sent (snd (set_address 0x08008000 (mkFS 0 [] [] [] true)))
  = [set_address_frame 0x08008000] /\
  fr_data (set_address_frame 0x08008000) = [6; 8; 0; 128; 0; 0; 0; 0].
Proof.
  split; [|reflexivity].
  exact (proj1 (set_address_big_endian 0x08008000 (mkFS 0 [] [] [] true) eq_refl)).
Defined.


(** [X5] Once the ERASE_FLASH frame (command 0x01, seven zero bytes) is
    sent, [erase_flash] succeeds exactly when the first response of the
    15 s wait starts with ACK: a timeout, a NACK or any other first byte
    gives [False]. *)
Theorem erase_outcome (s : FState) (Htx : tx_ok s = true) :
  fst (erase_flash s) =
  match poll_scan 100 (now s) ERASE_TIMEOUT wait_step None (now s) (inbox s) with
  | (Ok None, _, _) => Ok false
  | (Ok (Some r), _, _) => Ok (hd 0 (fr_data r) =? RESP_ACK)
  | (Exc e, _, _) => Exc e
  end /\
  sent (snd (erase_flash s)) = sent s ++ [mkFrame CAN_HOST_ID true [CMD_ERASE_FLASH; 0; 0; 0; 0; 0; 0; 0]].
Proof.
  split.
  - unfold erase_flash, bind, report, send_command, to_bytes, send_message, ret.
    unfold add_event at 1. simpl. rewrite Htx. simpl.
    unfold wait_response, poll_loop. simpl.
    destruct (poll_scan 100 (now s) ERASE_TIMEOUT wait_step None (now s) (inbox s)) as [[x c] ib] eqn:E.
    destruct x as [[r|]|e]; simpl; try reflexivity.
    destruct (FlasherProofs.wait_scan_some _ _ _ _ _ _ _ _ E) as [_ [_ Hne]].
    destruct (fr_data r) as [|b0 rest] eqn:Hd; [congruence|]. simpl.
    destruct (b0 =? RESP_ACK) eqn:Ha; simpl; [reflexivity|].
    destruct (b0 =? RESP_NACK); reflexivity.
  - unfold erase_flash. rewrite (bind_step _ _ _ _ _ (report_step _ _ _ _ _ s)).
    erewrite bind_step by (apply send_command_ok; [exact Htx | byte_list]). cbn [negb].
    match goal with |- sent (snd (bind (wait_response ?t) ?k ?s1)) = _ =>
      destruct (keeps_bind (wait_response t) k (keeps_wait_response t)
        ltac:(intros [r|]; [|apply keeps_bind; [apply keeps_report|]; intros _; apply keeps_ret];
              apply keeps_bind; [apply keeps_byte_at|]; intros b0;
              destruct (b0 =? RESP_ACK); [|destruct (b0 =? RESP_NACK)];
              apply keeps_bind; try apply keeps_report; intros _; apply keeps_ret) s1)
        as [H1 _] end.
    rewrite H1. reflexivity.
Qed.

Lemma erase_outcome_witness :
  fst (erase_flash (mkFS 0 [(20, Some (mkFrame CAN_BOOTLOADER_ID true [RESP_NACK; 3; 0; 0; 0; 0; 0; 0]))] [] [] true))
  = Ok false.
Proof.
  rewrite (proj1 (erase_outcome
    (mkFS 0 [(20, Some (mkFrame CAN_BOOTLOADER_ID true [RESP_NACK; 3; 0; 0; 0; 0; 0; 0]))] [] [] true)
    eq_refl)).
  vm_compute. reflexivity.
Defined.

(** [X6] [write_4bytes] refuses data that is not exactly 4 bytes, sending
    nothing; 4 in-range bytes go out as one frame WRITE_DATA, 4, the bytes,
    0, 0, and without an ACK wait the call then returns [True]. *)
Theorem write_4bytes_frame (data : list Z) (wait_ack : bool) (s : FState) :
  (length data <> 4%nat -> write_4bytes data wait_ack s = (Ok false, s)) /\
  (length data = 4%nat -> List.Forall (fun b => 0 <= b < 256) data -> tx_ok s = true ->
   sent (snd (write_4bytes data wait_ack s)) = sent s ++ [write_data_frame data] /\
   (wait_ack = false -> fst (write_4bytes data wait_ack s) = Ok true)).
Proof.
  split.
  - intros Hl. unfold write_4bytes.
    replace (Nat.eqb (length data) 4) with false by (symmetry; apply Nat.eqb_neq; exact Hl).
    reflexivity.
  - intros Hl Hb Htx. destruct wait_ack.
    + split; [|discriminate].
      destruct data as [|a [|b [|c [|d [|e r]]]]]; simpl in Hl; try discriminate.
      unfold write_4bytes. cbn [length Nat.eqb negb].
      erewrite bind_step
        by (apply send_command_ok; [exact Htx | byte_list]).
      cbn [negb].
      match goal with |- sent (snd (bind (wait_response ?t) ?k ?s1)) = _ =>
        destruct (keeps_bind (wait_response t) k (keeps_wait_response t)
          ltac:(intros [r'|]; [|apply keeps_ret]; apply keeps_bind; [apply keeps_byte_at|];
                intros b0; destruct (b0 =? RESP_ACK); [apply keeps_ret|];
                destruct (b0 =? RESP_NACK); [|apply keeps_ret];
                apply keeps_bind; [apply keeps_report|]; intros _; apply keeps_ret) s1)
          as [H1 _] end.
      rewrite H1. reflexivity.
    + rewrite (write_4bytes_ok data s Hl Hb Htx). split; reflexivity.
Qed.

Lemma write_4bytes_frame_witness :
  sent (snd (write_4bytes [1; 2; 3; 4] true (mkFS 0 [] [] [] true)))
  = [mkFrame CAN_HOST_ID true [7; 4; 1; 2; 3; 4; 0; 0]].
Proof.
  exact (proj1 (proj2 (write_4bytes_frame [1; 2; 3; 4] true (mkFS 0 [] [] [] true))
                  eq_refl ltac:(repeat constructor; lia) eq_refl)).
Defined.

Lemma wait_scan_consumes (t start timeout clk : Z) (ib : list Poll) (x : Result (option Frame))
    (c : Z) (ib' : list Poll) :
  poll_scan t start timeout wait_step None clk ib = (x, c, ib') ->
  exists pre, ib = pre ++ ib' /\ (forall r, x = Ok (Some r) -> In (Some r) (map snd pre)).
Proof.
  revert clk. induction ib as [|[tm [m|]] rest IH]; intros clk H; simpl in H.
  - destruct (clk - start <? timeout); inversion H; subst;
      exists []; (split; [reflexivity | intros r Hr; discriminate]).
  - destruct (clk - start <? timeout).
    + destruct (wait_step m) as [|y] eqn:Hw.
      * destruct (IH _ H) as [pre [E1 E2]]. exists ((tm, Some m) :: pre).
        split; [rewrite E1; reflexivity|]. intros r Hr. right. exact (E2 r Hr).
      * inversion H; subst. exists [(tm, Some m)]. split; [reflexivity|].
        intros r Hr. subst. unfold wait_step in Hw.
        destruct (fr_id m =? CAN_BOOTLOADER_ID); [|discriminate].
        destruct (is_heartbeat (fr_data m)); [discriminate|].
        destruct (fr_data m); inversion Hw; subst. left. reflexivity.
    + inversion H; subst. exists []. split; [reflexivity | intros r Hr; discriminate].
  - destruct (clk - start <? timeout).
    + destruct (IH _ H) as [pre [E1 E2]]. exists ((tm, None) :: pre).
      split; [rewrite E1; reflexivity|]. intros r Hr. right. exact (E2 r Hr).
    + inversion H; subst. exists []. split; [reflexivity | intros r Hr; discriminate].
Qed.

Lemma wait_response_consumes (t : Z) (s s1 : FState) (x : Result (option Frame)) :
  wait_response t s = (x, s1) ->
  exists pre, inbox s = pre ++ inbox s1 /\ events s1 = events s /\
              (forall r, x = Ok (Some r) -> In (Some r) (map snd pre)).
Proof.
  unfold wait_response, poll_loop.
  destruct (poll_scan 100 (now s) t wait_step None (now s) (inbox s)) as [[y c] ib] eqn:E.
  intros H. inversion H; subst. destruct (wait_scan_consumes _ _ _ _ _ _ _ _ E) as [pre [E1 E2]].
  exists pre. simpl. auto.
Qed.

(** The progress event [read_pending_acks] reports on a NACK whose payload is [d]. *)
Definition nack_event (d : list Z) : Progress :=
  mkProgress "error" 0
    ("Write failed: " +:+ error_description (if 1 <? Z.of_nat (length d) then nth 1 d 0 else 0) "Unknown")
    0 0.

Lemma rpa_outcome (fuel : nat) (e t st ack : Z) (s : FState) :
  0 <= ack <= Z.max 0 e ->
  match rpa_loop fuel e t st ack s with
  | (Ok r, s') =>
      (r = -1 /\ exists fr, In (Some fr) (map snd (inbox s)) /\ fr_id fr = CAN_BOOTLOADER_ID /\
                            hd 0 (fr_data fr) = RESP_NACK /\
                            events s' = events s ++ [nack_event (fr_data fr)]) \/
      (0 <= r <= Z.max 0 e /\ events s' = events s)
  | (Exc _, _) => True
  end.
Proof.
  revert ack s. induction fuel as [|f IH]; intros ack s Hack; simpl;
    unfold bind at 1, get_now; (destruct ((ack <? e) && (now s - st <? t)) eqn:Hc;
      [|right; split; [lia | reflexivity]]).
  - exact I.
  - apply andb_true_iff in Hc as [Hc _]. apply Z.ltb_lt in Hc.
    unfold bind at 1.
    destruct (wait_response (Z.min 50 (t - (now s - st))) s) as [x s1] eqn:Ew.
    destruct (wait_response_consumes _ _ _ _ Ew) as [pre [Ei [Ee Ein]]].
    destruct x as [[r|]|ex]; [| right; split; [lia | exact Ee] | exact I].
    destruct (FlasherProofs.wait_response_some _ _ _ _ Ew) as [Hid _].
    specialize (Ein r eq_refl).
    unfold bind at 1.
    destruct (byte_at (fr_data r) 0 s1) as [[b0|ex] s2] eqn:Eb; [|exact I].
    assert (Hb : s2 = s1 /\ hd 0 (fr_data r) = b0).
    { unfold byte_at in Eb. destruct (fr_data r) as [|y l]; simpl in Eb; [discriminate|].
      inversion Eb. auto. }
    destruct Hb as [-> Hb0].
    assert (Hlift : forall a, 0 <= a <= Z.max 0 e ->
      match rpa_loop f e t st a s1 with
      | (Ok r0, s') =>
          (r0 = -1 /\ exists fr, In (Some fr) (map snd (inbox s)) /\ fr_id fr = CAN_BOOTLOADER_ID /\
                                 hd 0 (fr_data fr) = RESP_NACK /\
                                 events s' = events s ++ [nack_event (fr_data fr)]) \/
          (0 <= r0 <= Z.max 0 e /\ events s' = events s)
      | (Exc _, _) => True
      end).
    { intros a Ha. specialize (IH a s1 Ha).
      destruct (rpa_loop f e t st a s1) as [[r0|ex] s']; [|exact I].
      destruct IH as [[Hm [fr [Hin [Hfid [Hhd Hev]]]]] | [Hr Hev]].
      - left. split; [exact Hm|]. exists fr. rewrite Ei, map_app, <- Ee.
        repeat split; [apply in_or_app; right; exact Hin | exact Hfid | exact Hhd | exact Hev].
      - right. split; [exact Hr | rewrite Hev; exact Ee]. }
    destruct (b0 =? RESP_ACK); [apply Hlift; lia|].
    destruct (b0 =? RESP_NACK) eqn:En; [|apply Hlift; lia].
    apply Z.eqb_eq in En. simpl. left. split; [reflexivity|].
    exists r. rewrite Ei, map_app. repeat split.
    + apply in_or_app. left. exact Ein.
    + exact Hid.
    + rewrite Hb0. exact En.
    + rewrite Ee. reflexivity.
Qed.

(** [X7] [read_pending_acks(expected, timeout)] returns -1 exactly on a
    NACK: the result -1 comes with a NACK frame from the bootloader among
    the frames polled, and the one progress event it reports is the
    "Write failed" error for that NACK's error code.  Any other result is a
    count of ACKs between 0 and [expected], reported without any event. *)
Theorem read_pending_acks_range (expected timeout : Z) (s : FState) :
  match read_pending_acks expected timeout s with
  | (Ok r, s') =>
      (r = -1 /\ exists fr, In (Some fr) (map snd (inbox s)) /\ fr_id fr = CAN_BOOTLOADER_ID /\
                            hd 0 (fr_data fr) = RESP_NACK /\
                            events s' = events s ++ [nack_event (fr_data fr)]) \/
      (0 <= r <= Z.max 0 expected /\ events s' = events s)
  | (Exc _, _) => True
  end.
Proof. unfold read_pending_acks. apply rpa_outcome. lia. Qed.

Lemma reset_invalid (m : Z) (s : FState) :
  (m < 0 \/ 5 < m) ->
  send_reset_message m s
  = (Ok false, add_event (mkProgress "error" 0 ("Invalid module number: " +:+ Fmt.dec m) 0 0) s).
Proof.
  intros Hm. unfold send_reset_message.
  replace ((m <? 0) || (5 <? m)) with true
    by (symmetry; apply orb_true_iff; destruct Hm; [left|right]; apply Z.ltb_lt; lia).
  reflexivity.
Qed.

Lemma flash_prepare_ok (name : string) (fw : list Z) (s : FState) :
  exists fw' s1, flash_prepare name fw s = (Ok fw', s1) /\ sent s1 = sent s.
Proof.
  unfold flash_prepare. cbv zeta.
  destruct (APP_MAX_SIZE <? Z.of_nat (length fw)); unfold bind, report, ret;
    eexists; eexists; split; reflexivity.
Qed.

(** [X4] [flash_firmware] with a module number outside 0..5 returns
    [False] without putting any frame on the bus, whatever the image. *)
Theorem flash_firmware_bad_module (name : string) (fw : list Z) (m : Z)
    (verify jump : bool) (batch : Z) (s : FState) (Hm : m < 0 \/ 5 < m) :
  fst (flash_firmware name fw m verify jump batch s) = Ok false /\
  sent (snd (flash_firmware name fw m verify jump batch s)) = sent s.
Proof.
  destruct (flash_prepare_ok name fw s) as [fw' [s1 [Hp Hs1]]].
  unfold flash_firmware, try_catch.
  rewrite (bind_step _ _ _ _ _ Hp). unfold flash_stages.
  rewrite (bind_step _ _ _ _ _ (reset_invalid m s1 Hm)). cbn [negb].
  split; [reflexivity | exact Hs1].
Qed.

Lemma flash_firmware_bad_module_witness :
  fst (flash_firmware "fw.bin" [1; 2; 3; 4] 6 true true 16 (mkFS 0 [] [] [] true)) = Ok false /\
  sent (snd (flash_firmware "fw.bin" [1; 2; 3; 4] 6 true true 16 (mkFS 0 [] [] [] true))) = [].
Proof.
  exact (flash_firmware_bad_module "fw.bin" [1; 2; 3; 4] 6 true true 16 (mkFS 0 [] [] [] true)
           ltac:(lia)).
Defined.

(** *** The write loop *)

Lemma chunk_of (l : list Z) :
  l <> [] ->
  let c0 := firstn 4 l in
  let chunk := if Z.of_nat (length c0) <? 4
               then c0 ++ repeat 255 (Z.to_nat (4 - Z.of_nat (length c0))) else c0 in
  write_chunks l = chunk :: write_chunks (skipn 4 l) /\ length chunk = 4%nat /\
  (List.Forall (fun b => 0 <= b < 256) l -> List.Forall (fun b => 0 <= b < 256) chunk).
Proof.
  intros Hne. destruct l as [|a [|b [|c [|d r]]]]; [congruence| | | |]; cbv zeta; simpl;
    (split; [reflexivity | split; [reflexivity|]]); intros HF; byte_list.
Qed.

Lemma slice_chunk (data : list Z) (bw : Z) :
  0 <= bw ->
  py_slice data bw (Z.min (bw + WRITE_CHUNK_SIZE) (Z.of_nat (length data)))
  = firstn 4 (skipn (Z.to_nat bw) data).
Proof.
  intros Hbw. unfold py_slice, WRITE_CHUNK_SIZE.
  assert (Hl : length (skipn (Z.to_nat bw) data) = (length data - Z.to_nat bw)%nat)
    by apply length_skipn.
  destruct (Z.le_ge_cases (bw + 4) (Z.of_nat (length data))).
  - rewrite Z.min_l by lia. replace (Z.to_nat (bw + 4 - bw)) with 4%nat by lia. reflexivity.
  - rewrite Z.min_r by lia.
    rewrite (firstn_all2 (n := 4%nat) (skipn (Z.to_nat bw) data)) by lia.
    apply firstn_all2. lia.
Qed.

Lemma skip_chunk (data : list Z) (bw : Z) :
  0 <= bw -> skipn (Z.to_nat (bw + Z.of_nat 4)) data = skipn 4 (skipn (Z.to_nat bw) data).
Proof. intros Hbw. rewrite skipn_skipn. f_equal. lia. Qed.

Lemma write_loop_sent (fuel : nat) (data : list Z) (batch bw cib : Z) (s s' : FState) :
  tx_ok s = true -> List.Forall (fun b => 0 <= b < 256) data -> 0 <= bw ->
  write_loop fuel data (Z.of_nat (length data)) batch bw cib s = (Ok true, s') ->
  sent s' = sent s ++ map write_data_frame (write_chunks (skipn (Z.to_nat bw) data)) /\
  tx_ok s' = true.
Proof.
  revert bw cib s. induction fuel as [|f IH]; intros bw cib s Htx Hb Hbw H.
  - simpl in H. destruct (bw <? Z.of_nat (length data)) eqn:E; [discriminate|].
    inversion H; subst. apply Z.ltb_ge in E. rewrite skipn_all2 by lia.
    simpl. rewrite app_nil_r. auto.
  - cbn [write_loop] in H. destruct (bw <? Z.of_nat (length data)) eqn:E.
    2: { inversion H; subst. apply Z.ltb_ge in E. rewrite skipn_all2 by lia.
         simpl. rewrite app_nil_r. auto. }
    apply Z.ltb_lt in E.
    rewrite (slice_chunk data bw Hbw) in H.
    assert (Hne : skipn (Z.to_nat bw) data <> []).
    { intros Hn. assert (H0 : length (skipn (Z.to_nat bw) data) = 0%nat) by (rewrite Hn; reflexivity).
      rewrite length_skipn in H0. lia. }
    destruct (chunk_of _ Hne) as [Hw [Hlen Hcb]]. cbv zeta in Hw, Hlen, Hcb.
    apply bind_ok in H as [ok [s1 [H1 H2]]].
    rewrite (write_4bytes_ok _ s Hlen (Hcb (Forall_drop _ _ _ Hb)) Htx) in H1.
    inversion H1; subst ok s1. clear H1.
    cbv beta in H2. cbn [negb] in H2. rewrite Hlen in H2.
    replace (Z.of_nat 4 =? 4) with true in H2 by reflexivity. rewrite orb_true_r in H2.
    assert (Hstep : forall cib' s3 fr,
      sent s3 = sent s ++ [fr] -> tx_ok s3 = true ->
      (report "write" ((bw + Z.of_nat 4) * 100 / Z.of_nat (length data)) "Writing"
         (bw + Z.of_nat 4) (Z.of_nat (length data)) ;;;
       write_loop f data (Z.of_nat (length data)) batch (bw + Z.of_nat 4) cib') s3 = (Ok true, s') ->
      sent s' = sent s ++ fr :: map write_data_frame (write_chunks (skipn (Z.to_nat (bw + Z.of_nat 4)) data)) /\
      tx_ok s' = true).
    { intros cib' s3 fr Hs3 Ht3 H4.
      rewrite (bind_step _ _ _ _ _ (report_step _ _ _ _ _ s3)) in H4. cbv beta in H4.
      destruct (IH (bw + Z.of_nat 4) cib' (add_event _ s3) Ht3 Hb ltac:(lia) H4) as [Hs' Ht'].
      split; [|exact Ht']. rewrite Hs'. cbn [sent add_event]. rewrite Hs3, <- app_assoc.
      reflexivity. }
    rewrite Hw. cbn [map]. rewrite <- (skip_chunk data bw Hbw).
    match type of H2 with context [bind (if ?w then _ else _) _] => destruct w end.
    + apply bind_ok in H2 as [nx [s2 [H3 H4]]].
      apply bind_ok in H3 as [ack [s3 [H5 H6]]].
      match type of H5 with ?c ?s0 = _ =>
        destruct (keeps_read_pending_acks (cib + 1) 1000 s0) as [K1' K2'] end.
      rewrite H5 in K1', K2'. simpl in K1', K2'.
      destruct ((ack <? 0) || negb (ack =? cib + 1)).
      * unfold bind, report, ret in H6. inversion H6; subst. cbn in H4. inversion H4.
      * unfold ret in H6. inversion H6; subst. cbv beta iota in H4.
        refine (Hstep _ _ _ _ _ H4); [rewrite K1'; reflexivity | rewrite K2'; exact Htx].
    + apply bind_ok in H2 as [nx [s2 [H3 H4]]].
      unfold ret in H3. inversion H3; subst. cbv beta iota in H4.
      refine (Hstep _ _ _ _ _ H4); [reflexivity | exact Htx].
Qed.

Lemma write_chunks_concat (l : list Z) :
  concat (write_chunks l) = l ++ repeat 255 ((4 - length l mod 4) mod 4) /\
  List.Forall (fun c => length c = 4%nat) (write_chunks l).
Proof.
  assert (G : forall n l, (length l <= n)%nat ->
    concat (write_chunks l) = l ++ repeat 255 ((4 - length l mod 4) mod 4) /\
    List.Forall (fun c => length c = 4%nat) (write_chunks l)).
  { induction n as [|n IH]; intros l' Hl;
      destruct l' as [|a [|b [|c [|d r]]]]; simpl in Hl; try lia;
      try (split; [reflexivity | repeat constructor]).
    destruct (IH r ltac:(lia)) as [H1 H2]. split.
    - cbn [write_chunks concat]. rewrite H1.
      replace (length (a :: b :: c :: d :: r) mod 4)%nat with (length r mod 4)%nat.
      + reflexivity.
      + replace (length (a :: b :: c :: d :: r)) with (length r + 1 * 4)%nat by (simpl; lia).
        symmetry. apply Nat.Div0.mod_add.
    - constructor; [reflexivity | exact H2]. }
  apply (G (length l)). lia.
Qed.

Lemma write_firmware_sent (data : list Z) (batch : Z) (s s' : FState) :
  tx_ok s = true -> List.Forall (fun b => 0 <= b < 256) data ->
  write_firmware data batch s = (Ok true, s') ->
  sent s' = sent s ++ set_address_frame APP_START_ADDRESS :: map write_data_frame (write_chunks data).
Proof.
  intros Htx Hb H.
  unfold write_firmware in H. cbv zeta in H.
  rewrite (bind_step _ _ _ _ _ (report_step _ _ _ _ _ s)) in H. cbv beta in H.
  match type of H with bind (drain ?t) _ ?s0 = _ =>
    destruct (drain_ok t s0) as [c [s1 Ed]];
    destruct (keeps_drain t s0) as [Kd1 Kd2]; rewrite Ed in Kd1, Kd2;
    rewrite (bind_step _ _ _ _ _ Ed) in H end.
  cbv beta in H. simpl in Kd1, Kd2.
  apply bind_ok in H as [ok [s2 [H1 H2]]].
  destruct (set_address_effect APP_START_ADDRESS s1 ltac:(congruence)) as [Es Et].
  rewrite H1 in Es, Et. simpl in Es, Et.
  destruct ok; cbn [negb] in H2; [|cbv [bind report ret] in H2; discriminate H2].
  apply bind_ok in H2 as [ok [s3 [H3 H4]]].
  destruct ok; cbn [negb] in H4; [|cbv [ret] in H4; discriminate H4].
  destruct (write_loop_sent _ _ _ 0 _ _ _ Et Hb ltac:(lia) H3) as [Ew _].
  cbv [bind report ret] in H4. inversion H4; subst s'. cbn [sent add_event].
  rewrite Ew, Es, Kd1, <- app_assoc. reflexivity.
Qed.

(** [X8] When [write_firmware] returns [True], the frames it put on the bus
    are exactly one SET_ADDRESS to the application start 0x08008000 and then
    one WRITE_DATA frame per 4-byte chunk of the image, in order; the chunks
    are the image followed by 0xFF bytes up to a multiple of 4. *)
Theorem write_firmware_frames (data : list Z) (batch : Z) (s s' : FState) :
  tx_ok s = true -> List.Forall (fun b => 0 <= b < 256) data ->
  write_firmware data batch s = (Ok true, s') ->
  sent s' = sent s ++ set_address_frame APP_START_ADDRESS :: map write_data_frame (write_chunks data) /\
  concat (write_chunks data) = data ++ repeat 255 ((4 - length data mod 4) mod 4) /\
  List.Forall (fun c => length c = 4%nat) (write_chunks data).
Proof.
  intros Htx Hb H. split; [exact (write_firmware_sent _ _ _ _ Htx Hb H) | apply write_chunks_concat].
Qed.

Lemma write_firmware_frames_witness :
  sent (snd (write_firmware [1; 2; 3; 4] 16
    (mkFS 0 [(10, None); (20, None); (30, from_target ack_frame); (40, from_target ack_frame)] [] [] true)))
  = [set_address_frame APP_START_ADDRESS; write_data_frame [1; 2; 3; 4]].
Proof.
  exact (proj1 (write_firmware_frames [1; 2; 3; 4] 16
    (mkFS 0 [(10, None); (20, None); (30, from_target ack_frame); (40, from_target ack_frame)] [] [] true)
    _ eq_refl ltac:(repeat constructor; lia) ltac:(vm_compute; reflexivity))).
Defined.

(** *** The verify loop *)

Lemma take_app_drop (n m : nat) (l : list Z) :
  firstn n l ++ firstn m (skipn n l) = firstn (n + m) l.
Proof.
  revert l. induction n as [|n IH]; intros l; [reflexivity|].
  destruct l as [|x r]; simpl; [apply firstn_nil | f_equal; apply IH].
Qed.

Lemma py_slice_app (e : list Z) (a b c : Z) :
  0 <= a <= b -> b <= c -> py_slice e a b ++ py_slice e b c = py_slice e a c.
Proof.
  intros Hab Hbc. unfold py_slice.
  replace (skipn (Z.to_nat b) e) with (skipn (Z.to_nat (b - a)) (skipn (Z.to_nat a) e))
    by (rewrite skipn_skipn; f_equal; lia).
  replace (Z.to_nat (c - a)) with (Z.to_nat (b - a) + Z.to_nat (c - b))%nat by lia.
  apply take_app_drop.
Qed.

Lemma py_slice_nil (e : list Z) (a : Z) : py_slice e a a = [].
Proof. unfold py_slice. rewrite Z.sub_diag. reflexivity. Qed.

Lemma build_batch_spec (k : nat) (e : list Z) (addr bv : Z) :
  0 <= bv ->
  let '(rs, ca, bv') := build_batch k (Z.of_nat (length e)) addr bv in
  concat (map (fun ri => py_slice e (ri_offset ri) (ri_offset ri + ri_size ri)) rs)
  = py_slice e bv bv' /\
  List.Forall (fun ri => 1 <= ri_size ri <= 7 /\ ri_address ri = addr + (ri_offset ri - bv)) rs /\
  (length rs <= k)%nat /\ ca = addr + (bv' - bv) /\
  bv' = Z.max bv (Z.min (Z.of_nat (length e)) (bv + 7 * Z.of_nat k)).
Proof.
  revert addr bv. induction k as [|k IH]; intros addr bv Hbv.
  - simpl. rewrite py_slice_nil. repeat split; try constructor; lia.
  - cbn [build_batch]. destruct (Z.of_nat (length e) <=? bv) eqn:E.
    + apply Z.leb_le in E. simpl. rewrite py_slice_nil. repeat split; try constructor; lia.
    + apply Z.leb_gt in E.
      specialize (IH (addr + Z.min 7 (Z.of_nat (length e) - bv))
                     (bv + Z.min 7 (Z.of_nat (length e) - bv)) ltac:(lia)).
      destruct (build_batch k (Z.of_nat (length e)) (addr + Z.min 7 (Z.of_nat (length e) - bv))
                  (bv + Z.min 7 (Z.of_nat (length e) - bv))) as [[rs ca] bv'].
      destruct IH as [H1 [H2 [H3 [H4 H5]]]].
      split; [|split; [|split; [|split]]].
      * cbn [map concat ri_offset ri_size]. rewrite H1. apply py_slice_app; lia.
      * constructor; [simpl; lia|].
        eapply List.Forall_impl; [|exact H2]. intros ri [Hs Ha]. split; [exact Hs | lia].
      * simpl. lia.
      * lia.
      * lia.
Qed.

(** [X9] A batch of [verify_flash] reads the image from [bytes_verified]
    on without gap or overlap: the slices of its reads, in order, put
    together are the bytes from [bytes_verified] up to the new count; each
    read is 1 to 7 bytes at the matching flash address, there are at most
    [batch_size] of them, and the count advances by 7 per read until the
    end of the image. *)
Theorem build_batch_tiles (k : nat) (e : list Z) (addr bv : Z) (Hbv : 0 <= bv) :
  let '(rs, ca, bv') := build_batch k (Z.of_nat (length e)) addr bv in
  concat (map (fun ri => py_slice e (ri_offset ri) (ri_offset ri + ri_size ri)) rs)
  = py_slice e bv bv' /\
  List.Forall (fun ri => 1 <= ri_size ri <= 7 /\ ri_address ri = addr + (ri_offset ri - bv)) rs /\
  (length rs <= k)%nat /\ ca = addr + (bv' - bv) /\
  bv' = Z.max bv (Z.min (Z.of_nat (length e)) (bv + 7 * Z.of_nat k)).
Proof. exact (build_batch_spec k e addr bv Hbv). Qed.

Lemma build_batch_tiles_witness :
  0 <= 0 /\
  build_batch 3 20 APP_START_ADDRESS 0
  = ([mkRead APP_START_ADDRESS 7 0; mkRead (APP_START_ADDRESS + 7) 7 7;
      mkRead (APP_START_ADDRESS + 14) 6 14], APP_START_ADDRESS + 20, 20) /\
  concat (map (fun ri => py_slice (seqZ 0 20) (ri_offset ri) (ri_offset ri + ri_size ri))
             (fst (fst (build_batch 3 20 APP_START_ADDRESS 0))))
  = py_slice (seqZ 0 20) 0 20.
Proof.
  split; [lia|]. split; [vm_compute; reflexivity|].
  pose proof (build_batch_tiles 3 (seqZ 0 20) APP_START_ADDRESS 0 ltac:(lia)) as H.
  destruct (build_batch 3 (Z.of_nat (length (seqZ 0 20))) APP_START_ADDRESS 0)
    as [[rs ca] bv'] eqn:E.
  vm_compute in E. inversion E; subst. exact (proj1 H).
Defined.

Lemma verify_loop_stuck (fuel : nat) (e : list Z) (b addr bv : Z) (s : FState) :
  b <= 0 -> bv < Z.of_nat (length e) ->
  fst (verify_loop fuel e b addr bv s) = Exc OutOfFuel.
Proof.
  intros Hb Hbv. revert s. induction fuel as [|f IH]; intros s.
  - cbn [verify_loop]. apply Z.ltb_lt in Hbv. rewrite Hbv. reflexivity.
  - cbn [verify_loop]. apply Z.ltb_lt in Hbv as Hlt. rewrite Hlt.
    replace (Z.to_nat b) with 0%nat by lia. cbn [build_batch send_reads check_reads].
    unfold bind at 1, ret at 1. cbn [negb].
    unfold bind at 1, ret at 1. cbn [negb].
    rewrite (bind_step _ _ _ _ _ (report_step _ _ _ _ _ s)). apply IH.
Qed.

(** [X10] With [batch_size <= 0] every batch of [verify_flash] is empty and
    the count of verified bytes never moves, so on a non-empty image the
    verify loop never finishes, however many iterations it is given. *)
Theorem verify_flash_no_progress (e : list Z) (b : Z) (Hb : b <= 0) (He : e <> []) :
  (forall fuel s, fst (verify_loop fuel e b APP_START_ADDRESS 0 s) = Exc OutOfFuel) /\
  (forall s, fst (verify_flash e b s) = Exc OutOfFuel).
Proof.
  assert (Hn : 0 < Z.of_nat (length e)) by (destruct e; [congruence | simpl; lia]).
  split.
  - intros fuel s. apply verify_loop_stuck; lia.
  - intros s. unfold verify_flash. cbv zeta.
    rewrite (bind_step _ _ _ _ _ (report_step _ _ _ _ _ s)). cbv beta.
    unfold bind at 1.
    pose proof (verify_loop_stuck (length e) e b APP_START_ADDRESS 0
                  (add_event (mkProgress "verify" 0 "Verifying flash..." 0 (Z.of_nat (length e))) s)
                  Hb Hn) as H.
    destruct (verify_loop (length e) e b APP_START_ADDRESS 0 _) as [r s1].
    simpl in H. subst r. reflexivity.
Qed.

Lemma verify_flash_no_progress_witness :
  fst (verify_flash [1; 2; 3] 0 (mkFS 0 [] [] [] true)) = Exc OutOfFuel.
Proof.
  exact (proj2 (verify_flash_no_progress [1; 2; 3] 0 ltac:(lia) ltac:(discriminate))
           (mkFS 0 [] [] [] true)).
Defined.

(** *** A successful flash *)

Definition grows {A} (c : M A) : Prop :=
  forall s, exists l, sent (snd (c s)) = sent s ++ l /\ tx_ok (snd (c s)) = tx_ok s.

Lemma grows_keeps {A} (c : M A) : keeps c -> grows c.
Proof. intros H s. destruct (H s) as [H1 H2]. exists []. rewrite app_nil_r. auto. Qed.

Lemma grows_bind {A B} (c : M A) (k : A -> M B) :
  grows c -> (forall a, grows (k a)) -> grows (bind c k).
Proof.
  intros Hc Hk s. unfold bind. destruct (Hc s) as [l1 [E1 T1]].
  destruct (c s) as [[a|e] s1]; simpl in *; [|exists l1; auto].
  destruct (Hk a s1) as [l2 [E2 T2]]. exists (l1 ++ l2).
  rewrite E2, E1, <- app_assoc. split; [reflexivity | congruence].
Qed.

Lemma grows_send_command c d : grows (send_command c d).
Proof.
  intros s. unfold send_command, bind, to_bytes.
  destruct (forallb _ _); [|exists []; rewrite app_nil_r; auto].
  unfold ret, send_message. destruct (tx_ok s) eqn:E; simpl;
    [exists [mkFrame CAN_HOST_ID true (firstn 8 ((c :: d) ++ repeat 0 (8 - length (c :: d))))] |
     exists []]; rewrite ?app_nil_r; auto.
Qed.

Ltac grow :=
  match goal with
  | |- grows (bind _ _) => apply grows_bind; [grow | intro; grow]
  | |- grows (if ?b then _ else _) => destruct b; grow
  | |- grows (match ?x with _ => _ end) => destruct x; grow
  | |- grows (ret _) => apply grows_keeps, keeps_ret
  | |- grows (report _ _ _ _ _) => apply grows_keeps, keeps_report
  | |- grows (wait_response _) => apply grows_keeps, keeps_wait_response
  | |- grows (byte_at _ _) => apply grows_keeps, keeps_byte_at
  | |- grows (send_command _ _) => apply grows_send_command
  | |- _ => first [assumption | eauto]
  end.

Lemma grows_send_reads rs : grows (send_reads rs).
Proof. induction rs as [|ri r IH]; simpl; grow. Qed.

Lemma grows_check_reads e rs : grows (check_reads e rs).
Proof. induction rs as [|ri r IH]; simpl; grow. Qed.

Lemma grows_verify_loop fuel e b a bv : grows (verify_loop fuel e b a bv).
Proof.
  revert a bv. induction fuel as [|f IH]; intros a bv; cbn [verify_loop]; cbv zeta.
  - destruct (bv <? Z.of_nat (length e)); [apply grows_keeps, keeps_raise | grow].
  - destruct (bv <? Z.of_nat (length e)); [|grow].
    destruct (build_batch (Z.to_nat b) (Z.of_nat (length e)) a bv) as [[rs ca] bv'].
    apply grows_bind; [apply grows_send_reads|]. intros ok. destruct (negb ok); [grow|].
    apply grows_bind; [apply grows_check_reads|]. intros ok'. destruct (negb ok'); grow.
Qed.

Lemma grows_verify_flash e b : grows (verify_flash e b).
Proof. unfold verify_flash. cbv zeta. apply grows_bind; [grow|]. intros _. grow.
  apply grows_verify_loop. Qed.

Lemma grows_jump : grows jump_to_application.
Proof. unfold jump_to_application. grow. Qed.

Lemma take_upto_all (n : Z) (l : list Z) : Z.of_nat (length l) <= n -> take_upto n l = l.
Proof.
  revert n. induction l as [|x r IH]; intros n Hn; simpl; [reflexivity|].
  simpl length in Hn. destruct (n <=? 0) eqn:E; [apply Z.leb_le in E; lia|].
  rewrite IH by lia. reflexivity.
Qed.

Lemma take_upto_bytes (n : Z) (l : list Z) :
  List.Forall (fun b => 0 <= b < 256) l -> List.Forall (fun b => 0 <= b < 256) (take_upto n l).
Proof.
  revert n. induction l as [|x r IH]; intros n H; simpl; [constructor|].
  inversion H; subst. destruct (n <=? 0); [constructor | constructor; auto].
Qed.

Lemma pad_bytes (l : list Z) :
  List.Forall (fun b => 0 <= b < 256) l ->
  List.Forall (fun b => 0 <= b < 256) (pad_to_4byte_boundary l).
Proof.
  intros H. unfold pad_to_4byte_boundary. cbv zeta.
  destruct (0 <? _); [|exact H]. apply List.Forall_app. split; [exact H|].
  apply List.Forall_forall. intros x Hx. apply repeat_spec in Hx. lia.
Qed.

Lemma flash_prepare_val (name : string) (fw : list Z) (s : FState) :
  exists s1, flash_prepare name fw s = (Ok (pad_to_4byte_boundary (take_upto APP_MAX_SIZE fw)), s1) /\
  sent s1 = sent s /\ tx_ok s1 = tx_ok s.
Proof.
  unfold flash_prepare. cbv zeta.
  destruct (APP_MAX_SIZE <? Z.of_nat (length fw)) eqn:E; unfold bind, report, ret.
  - eexists. split; [reflexivity | split; reflexivity].
  - apply Z.ltb_ge in E. rewrite (take_upto_all _ _ E).
    eexists. split; [reflexivity | split; reflexivity].
Qed.

Lemma reset_true (m : Z) (s s' : FState) :
  send_reset_message m s = (Ok true, s') ->
  0 <= m <= 5 /\ tx_ok s = true /\
  sent s' = sent s ++ [mkFrame (0x08F00F02 + m * 65536) true (repeat 0 8)] /\ tx_ok s' = true.
Proof.
  unfold send_reset_message. destruct ((m <? 0) || (5 <? m)) eqn:Em.
  - unfold bind, report, ret. discriminate.
  - apply orb_false_iff in Em as [E1 E2]. apply Z.ltb_ge in E1. apply Z.ltb_ge in E2.
    rewrite (bind_step _ _ _ _ _ (report_step _ _ _ _ _ s)). cbv zeta.
    case_eq (tx_ok s); intros Htx.
    2: { intros H. unfold bind, send_message, report, ret in H. simpl in H.
         rewrite Htx in H. simpl in H. discriminate H. }
    erewrite bind_step by (apply send_message_ok; exact Htx). cbn [negb].
    intros H.
    match type of H with bind (poll_loop ?a ?b ?c ?d) ?k ?s1 = _ =>
      destruct (keeps_bind (poll_loop a b c d) k (keeps_poll_loop a b c d)
                  ltac:(intros [v|]; (apply keeps_bind; [apply keeps_report|]);
                        intros _; apply keeps_ret) s1) as [H1 H2] end.
    rewrite H in H1, H2. simpl in H1, H2.
    rewrite Z.shiftl_mul_pow2 in H1 by lia.
    repeat split; first [lia | exact Htx | rewrite H1; reflexivity | rewrite H2; exact Htx].
Qed.

Lemma erase_effect (s : FState) :
  tx_ok s = true ->
  sent (snd (erase_flash s)) = sent s ++ [mkFrame CAN_HOST_ID true [CMD_ERASE_FLASH; 0; 0; 0; 0; 0; 0; 0]] /\
  tx_ok (snd (erase_flash s)) = true.
Proof.
  intros Htx. unfold erase_flash. rewrite (bind_step _ _ _ _ _ (report_step _ _ _ _ _ s)).
  erewrite bind_step by (apply send_command_ok; [exact Htx | byte_list]). cbn [negb].
  match goal with |- sent (snd (bind (wait_response ?t) ?k ?s1)) = _ /\ _ =>
    destruct (keeps_bind (wait_response t) k (keeps_wait_response t)
      ltac:(intros [r|]; [|apply keeps_bind; [apply keeps_report|]; intros _; apply keeps_ret];
            apply keeps_bind; [apply keeps_byte_at|]; intros b0;
            destruct (b0 =? RESP_ACK); [|destruct (b0 =? RESP_NACK)];
            apply keeps_bind; try apply keeps_report; intros _; apply keeps_ret) s1)
      as [H1 H2] end.
  rewrite H1, H2. split; [reflexivity | exact Htx].
Qed.

(** [X19] When [flash_firmware] reports success, the module number is in
    0..5 and the bus has seen, in this order, the module's reset frame, the
    ERASE_FLASH command, the SET_ADDRESS to the application start, and one
    WRITE_DATA frame per 4-byte word of the truncated and padded image;
    whatever verification and the jump sent comes after. *)
Theorem flash_firmware_success_frames (name : string) (data : list Z) (m : Z)
    (verify jump : bool) (batch : Z) (s s' : FState)
    (Hb : List.Forall (fun b => 0 <= b < 256) data)
    (H : flash_firmware name data m verify jump batch s = (Ok true, s')) :
  0 <= m <= 5 /\
  exists rest, sent s' =
    sent s ++ [mkFrame (0x08F00F02 + m * 65536) true (repeat 0 8);
               mkFrame CAN_HOST_ID true [CMD_ERASE_FLASH; 0; 0; 0; 0; 0; 0; 0];
               set_address_frame APP_START_ADDRESS]
           ++ map write_data_frame (write_chunks (pad_to_4byte_boundary (take_upto APP_MAX_SIZE data)))
           ++ rest.
Proof.
  unfold flash_firmware, try_catch in H.
  destruct (flash_prepare_val name data s) as [s1 [Ep [Hs1 Ht1]]].
  rewrite (bind_step _ _ _ _ _ Ep) in H.
  set (fw := pad_to_4byte_boundary (take_upto APP_MAX_SIZE data)) in *.
  assert (Hfw : List.Forall (fun b => 0 <= b < 256) fw) by (apply pad_bytes, take_upto_bytes, Hb).
  destruct (flash_stages fw m verify jump batch s1) as [[r|e] s2] eqn:Es.
  2: { destruct e; unfold flash_handler, bind, report, ret in H; discriminate H. }
  inversion H; subst r s2. clear H.
  unfold flash_stages in Es.
  apply bind_ok in Es as [ok1 [s3 [E1 Es]]].
  destruct ok1; cbn [negb] in Es; [|unfold ret in Es; discriminate Es].
  destruct (reset_true m s1 s3 E1) as [Hm [_ [Hs3 Ht3]]].
  split; [exact Hm|].
  rewrite (bind_step _ _ _ _ _ (eq_refl : sleep 500 s3 = (Ok tt, set_clock (now s3 + 500) (inbox s3) s3))) in Es.
  cbv beta in Es.
  apply bind_ok in Es as [ok2 [s4 [E2 Es]]].
  destruct (erase_effect (set_clock (now s3 + 500) (inbox s3) s3) Ht3) as [Hs4 Ht4].
  rewrite E2 in Hs4, Ht4. simpl in Hs4, Ht4.
  destruct ok2; cbn [negb] in Es; [|unfold ret in Es; discriminate Es].
  apply bind_ok in Es as [ok3 [s5 [E3 Es]]].
  destruct ok3; cbn [negb] in Es; [|unfold ret in Es; discriminate Es].
  pose proof (write_firmware_sent fw batch s4 s5 Ht4 Hfw E3) as Hs5.
  match type of Es with ?c s5 = _ =>
    assert (G : grows c) by (apply grows_bind;
      [destruct verify; [apply grows_verify_flash | grow] |
       intros ok; destruct (negb ok); [grow|];
       apply grows_bind; [destruct jump; [apply grows_bind; [apply grows_jump | intro; grow] | grow] |
                          intros _; grow]]);
    destruct (G s5) as [l [Hl _]] end.
  rewrite Es in Hl. simpl in Hl.
  exists l. rewrite Hl, Hs5, Hs4, Hs3, Hs1. simpl. rewrite <- !app_assoc. reflexivity.
Qed.

Lemma flash_firmware_success_frames_witness :
  0 <= 0 <= 5 /\
  exists rest, sent (snd (flash_firmware "fw.bin" [0xAB] 0 true true 16 (mkFS 0 coop_one [] [] true))) =
    [] ++ [mkFrame (0x08F00F02 + 0 * 65536) true (repeat 0 8);
           mkFrame CAN_HOST_ID true [CMD_ERASE_FLASH; 0; 0; 0; 0; 0; 0; 0];
           set_address_frame APP_START_ADDRESS]
       ++ map write_data_frame (write_chunks (pad_to_4byte_boundary (take_upto APP_MAX_SIZE [0xAB])))
       ++ rest.
Proof.
  exact (flash_firmware_success_frames "fw.bin" [0xAB] 0 true true 16 (mkFS 0 coop_one [] [] true)
           (snd (flash_firmware "fw.bin" [0xAB] 0 true true 16 (mkFS 0 coop_one [] [] true)))
           ltac:(repeat constructor; lia) ltac:(vm_compute; reflexivity)).
Defined.

(** *** The reads of a successful verification *)

Lemma send_command_refused (c : Z) (d : list Z) (s : FState) :
  tx_ok s = false -> List.Forall (fun b => 0 <= b < 256) (firstn 8 (c :: d) ++ repeat 0 (7 - length d)) ->
  send_command c d s = (Ok false, s).
Proof.
  intros Htx Hb. unfold send_command. cbv zeta. rewrite command_payload.
  unfold bind. rewrite (to_bytes_ok _ _ Hb). unfold send_message. rewrite Htx. reflexivity.
Qed.

Lemma send_reads_true (rs : list ReadInfo) (s s' : FState) :
  List.Forall (fun ri => 1 <= ri_size ri <= 7) rs ->
  send_reads rs s = (Ok true, s') -> sent s' = sent s ++ map read_flash_frame rs.
Proof.
  revert s. induction rs as [|ri r IH]; intros s Hr H; simpl in H.
  - inversion H; subst. rewrite app_nil_r. reflexivity.
  - inversion Hr as [|? ? Hs Hr']; subst.
    assert (Hb : List.Forall (fun b => 0 <= b < 256)
                   (firstn 8 (CMD_READ_FLASH :: read_addr_bytes ri) ++ repeat 0 (7 - length (read_addr_bytes ri))))
      by (unfold read_addr_bytes; byte_list).
    destruct (tx_ok s) eqn:Htx.
    + rewrite (bind_step _ _ _ _ _ (send_command_ok _ _ _ Htx Hb)) in H. cbn [negb] in H.
      rewrite (IH _ Hr' H). cbn [sent add_sent map]. rewrite <- app_assoc. reflexivity.
    + rewrite (bind_step _ _ _ _ _ (send_command_refused _ _ _ Htx Hb)) in H. cbn [negb] in H.
      unfold bind, report, ret in H. discriminate H.
Qed.

Lemma keeps_check_reads (e : list Z) (rs : list ReadInfo) : keeps (check_reads e rs).
Proof.
  induction rs as [|ri r IH]; cbn [check_reads]; [apply keeps_ret|].
  apply keeps_bind; [apply keeps_wait_response|]. intros [m|].
  - destruct (fr_data m) as [|b0 t].
    + apply keeps_bind; [apply keeps_report | intros _; apply keeps_ret].
    + destruct (b0 =? RESP_DATA); [destruct (bool_decide _); [exact IH|] |];
        apply keeps_bind; [apply keeps_report | intros _; apply keeps_ret |
                            apply keeps_report | intros _; apply keeps_ret].
  - apply keeps_bind; [apply keeps_report | intros _; apply keeps_ret].
Qed.

Lemma py_slice_end (e : list Z) (a b : Z) : b <= a -> py_slice e a b = [].
Proof. intros H. unfold py_slice. replace (Z.to_nat (b - a)) with 0%nat by lia. reflexivity. Qed.

Lemma verify_loop_reads (fuel : nat) (e : list Z) (b addr bv : Z) (s s' : FState) :
  0 <= bv -> verify_loop fuel e b addr bv s = (Ok true, s') ->
  exists rs, sent s' = sent s ++ map read_flash_frame rs /\
    concat (map (fun ri => py_slice e (ri_offset ri) (ri_offset ri + ri_size ri)) rs)
    = py_slice e bv (Z.of_nat (length e)) /\
    List.Forall (fun ri => 1 <= ri_size ri <= 7 /\ ri_address ri = addr + (ri_offset ri - bv)) rs.
Proof.
  revert addr bv s. induction fuel as [|f IH]; intros addr bv s Hbv H;
    cbn [verify_loop] in H; cbv zeta in H;
    destruct (bv <? Z.of_nat (length e)) eqn:E;
    try (apply Z.ltb_ge in E; unfold ret in H; inversion H; subst;
         exists []; rewrite app_nil_r, py_slice_end by lia;
         split; [reflexivity | split; [reflexivity | constructor]]).
  - discriminate H.
  - apply Z.ltb_lt in E.
    pose proof (build_batch_spec (Z.to_nat b) e addr bv Hbv) as Hbb.
    destruct (build_batch (Z.to_nat b) (Z.of_nat (length e)) addr bv) as [[rs1 ca] bv1].
    destruct Hbb as [T1 [T2 [_ [T4 T5]]]].
    apply bind_ok in H as [ok [s1 [H1 H2]]].
    destruct ok; cbn [negb] in H2; [|unfold ret in H2; discriminate H2].
    pose proof (send_reads_true rs1 s s1
                  (List.Forall_impl _ (fun ri (h : _ /\ _) => proj1 h) T2) H1) as Hs1.
    apply bind_ok in H2 as [ok [s2 [H3 H4]]].
    destruct (keeps_check_reads e rs1 s1) as [K _]. rewrite H3 in K. simpl in K.
    destruct ok; cbn [negb] in H4; [|unfold ret in H4; discriminate H4].
    rewrite (bind_step _ _ _ _ _ (report_step _ _ _ _ _ s2)) in H4.
    destruct (IH ca bv1 _ ltac:(lia) H4) as [rs2 [R1 [R2 R3]]].
    exists (rs1 ++ rs2). split; [|split].
    + rewrite R1. cbn [sent add_event]. rewrite K, Hs1, List.map_app, app_assoc. reflexivity.
    + rewrite List.map_app, concat_app, T1, R2. apply py_slice_app; lia.
    + apply List.Forall_app. split; [exact T2|].
      eapply List.Forall_impl; [|exact R3]. intros ri [Hs Ha]. split; [exact Hs | lia].
Qed.

(** [X20] When [verify_flash] reports success, the READ_FLASH requests it
    put on the bus read the whole image exactly once, in order: their
    slices put together are the image, each asks for 1 to 7 bytes, and
    each targets the application start plus the offset of its slice. *)
Theorem verify_flash_reads (e : list Z) (b : Z) (s s' : FState)
    (H : verify_flash e b s = (Ok true, s')) :
  exists rs, sent s' = sent s ++ map read_flash_frame rs /\
    concat (map (fun ri => py_slice e (ri_offset ri) (ri_offset ri + ri_size ri)) rs) = e /\
    List.Forall (fun ri => 1 <= ri_size ri <= 7 /\ ri_address ri = APP_START_ADDRESS + ri_offset ri) rs.
Proof.
  unfold verify_flash in H. cbv zeta in H.
  rewrite (bind_step _ _ _ _ _ (report_step _ _ _ _ _ s)) in H. cbv beta in H.
  apply bind_ok in H as [ok [s1 [H1 H2]]].
  destruct ok; cbn [negb] in H2; [|unfold ret in H2; discriminate H2].
  unfold bind, report, ret in H2. inversion H2; subst s'. clear H2.
  destruct (verify_loop_reads _ e b APP_START_ADDRESS 0 _ _ (Z.le_refl 0) H1) as [rs [R1 [R2 R3]]].
  exists rs. split; [|split].
  - cbn [sent add_event]. rewrite R1. reflexivity.
  - rewrite R2. unfold py_slice. rewrite Z.sub_0_r, Nat2Z.id. apply firstn_all.
  - eapply List.Forall_impl; [|exact R3]. intros ri [Hs Ha]. split; [exact Hs | lia].
Qed.

Lemma verify_flash_reads_witness :
  exists rs,
    sent (snd (verify_flash [0xAB; 255; 255; 255] 8
      (mkFS 0 [(10, from_target [RESP_DATA; 0xAB; 255; 255; 255; 0; 0; 0])] [] [] true)))
    = [] ++ map read_flash_frame rs /\
    concat (map (fun ri => py_slice [0xAB; 255; 255; 255] (ri_offset ri) (ri_offset ri + ri_size ri)) rs)
    = [0xAB; 255; 255; 255] /\
    List.Forall (fun ri => 1 <= ri_size ri <= 7 /\ ri_address ri = APP_START_ADDRESS + ri_offset ri) rs.
Proof.
  exact (verify_flash_reads [0xAB; 255; 255; 255] 8
    (mkFS 0 [(10, from_target [RESP_DATA; 0xAB; 255; 255; 255; 0; 0; 0])] [] [] true)
    (snd (verify_flash [0xAB; 255; 255; 255] 8
      (mkFS 0 [(10, from_target [RESP_DATA; 0xAB; 255; 255; 255; 0; 0; 0])] [] [] true)))
    ltac:(vm_compute; reflexivity)).
Defined.

End FlasherExtras.

Module ImageStages.
Import Flasher FlasherExtras.

(** *** Which exceptions the jump stage can raise *)

(** A computation that never runs out of loop fuel: the only exception
    [flash_firmware]'s handler does not catch. *)
Definition no_oof {A} (c : M A) : Prop := forall s, fst (c s) <> Exc OutOfFuel.

Lemma no_oof_bind {A B} (c : M A) (k : A -> M B) :
  no_oof c -> (forall a, no_oof (k a)) -> no_oof (bind c k).
Proof.
  intros Hc Hk s. unfold bind. specialize (Hc s).
  destruct (c s) as [[a|e] s1]; [apply Hk|].
  simpl in *. intros Heq. injection Heq as ->. apply Hc. reflexivity.
Qed.

Lemma no_oof_ret {A} (a : A) : no_oof (ret a).
Proof. intros s. discriminate. Qed.

Lemma no_oof_report st p m b t : no_oof (report st p m b t).
Proof. intros s. discriminate. Qed.

Lemma no_oof_byte_at l i : no_oof (byte_at l i).
Proof. intros s. unfold byte_at. destruct (nth_error l i); discriminate. Qed.

Lemma no_oof_send_command c d : no_oof (send_command c d).
Proof.
  unfold send_command. apply no_oof_bind.
  - intros s. unfold to_bytes. destruct (forallb _ _); discriminate.
  - intros bs s. unfold send_message. destruct (tx_ok s); discriminate.
Qed.

Lemma wait_scan_exc (t start timeout clk : Z) (ib : list Poll) (e : PyExc) (c : Z)
    (ib' : list Poll) :
  poll_scan t start timeout wait_step None clk ib = (Exc e, c, ib') -> e = IndexError.
Proof.
  revert clk. induction ib as [|[tm [m|]] rest IH]; intros clk H; simpl in H.
  - destruct (clk - start <? timeout); discriminate.
  - destruct (clk - start <? timeout); [|discriminate].
    destruct (wait_step m) as [|x] eqn:Hw; [apply (IH _ H)|].
    inversion H; subst x. unfold wait_step in Hw.
    destruct (fr_id m =? CAN_BOOTLOADER_ID); [|discriminate].
    destruct (is_heartbeat (fr_data m)); [discriminate|].
    destruct (fr_data m); inversion Hw; reflexivity.
  - destruct (clk - start <? timeout); [apply (IH _ H)|discriminate].
Qed.

Lemma no_oof_wait_response t : no_oof (wait_response t).
Proof.
  intros s. unfold wait_response, poll_loop.
  destruct (poll_scan 100 (now s) t wait_step None (now s) (inbox s)) as [[x c] ib] eqn:E.
  simpl. intros Hx. subst x. apply wait_scan_exc in E. discriminate.
Qed.

Lemma no_oof_jump : no_oof jump_to_application.
Proof.
  unfold jump_to_application.
  apply no_oof_bind; [apply no_oof_report|]. intros _.
  apply no_oof_bind; [apply no_oof_send_command|]. intros ok.
  destruct (negb ok).
  { apply no_oof_bind; [apply no_oof_report | intros _; apply no_oof_ret]. }
  apply no_oof_bind; [apply no_oof_wait_response|]. intros [r|].
  2: { apply no_oof_bind; [apply no_oof_report | intros _; apply no_oof_ret]. }
  apply no_oof_bind; [apply no_oof_byte_at|]. intros b0.
  destruct (b0 =? RESP_ACK).
  { apply no_oof_bind; [apply no_oof_report | intros _; apply no_oof_ret]. }
  apply no_oof_bind; [apply no_oof_byte_at|]. intros b1.
  destruct (b1 =? RESP_NACK); apply no_oof_bind; try apply no_oof_report; intros _; apply no_oof_ret.
Qed.

(** The drain of the queue returns a count and moves the state on. *)
Lemma drain_shape (t : Z) (x : FState) : drain t x = (Ok (fst (fst (drain_scan t (now x) (inbox x)))), snd (drain t x)).
Proof. unfold drain. destruct (drain_scan t (now x) (inbox x)) as [[c clk] ib]. reflexivity. Qed.

Lemma result_ok {A} (c : M A) (x : FState) (a : A) :
  fst (c x) = Ok a -> c x = (Ok a, snd (c x)).
Proof. destruct (c x) as [r y]. simpl. intros H. subst r. reflexivity. Qed.

(** [C4] No length check rejects an empty image, and there is no
    InvalidLength error.  Padding leaves an empty image empty and it
    reaches the protocol stages unchanged; its write stage is the SET_ADDRESS
    handshake alone (no WRITE_DATA) and its verify stage reads nothing and
    succeeds.  So whenever the reset, erase and SET_ADDRESS handshakes
    succeed, the flash of an empty image returns [True] when no jump is
    requested; with a jump it returns [True] unless the jump stage raises
    (an empty reply to JUMP raises IndexError, which the flash catches and
    turns into [False]).  A one-byte image [b] is padded with 0xFF to
    [b; 0xFF; 0xFF; 0xFF], reaches the protocol stages like that, and a
    successful write stage sends SET_ADDRESS and exactly one WRITE_DATA
    frame carrying those four bytes. *)
Theorem empty_and_one_byte_images (name : string) (b m batch_size : Z) (verify jump : bool)
    (s : FState) :
  let s0 := add_event (mkProgress "write" 0 ("Loading " +:+ name +:+ "...") 0 0) s in
  let s1 := snd (send_reset_message m s0) in
  let s2 := snd (erase_flash (snd (sleep 500 s1))) in
  let s3 := snd (set_address APP_START_ADDRESS
                   (snd (drain 50 (add_event (mkProgress "write" 0 "Writing firmware..." 0 0) s2)))) in
  let s4 := add_event (mkProgress "write" 100 "Write complete" 0 0) s3 in
  let s5 := if verify
            then add_event (mkProgress "verify" 100 "Verification successful" 0 0)
                   (add_event (mkProgress "verify" 0 "Verifying flash..." 0 0) s4)
            else s4 in
  pad_to_4byte_boundary [] = [] /\
  flash_prepare name [] s = (Ok [], s0) /\
  write_firmware [] batch_size s =
    (report "write" 0 "Writing firmware..." 0 0 ;;;
     let! _ := drain 50 in
     let! ok := set_address APP_START_ADDRESS in
     if negb ok then report "error" 0 "Failed to set initial address" 0 0 ;;; ret false
     else report "write" 100 "Write complete" 0 0 ;;; ret true) s /\
  verify_flash [] batch_size s =
    (report "verify" 0 "Verifying flash..." 0 0 ;;;
     report "verify" 100 "Verification successful" 0 0 ;;; ret true) s /\
  (fst (send_reset_message m s0) = Ok true ->
   fst (erase_flash (snd (sleep 500 s1))) = Ok true ->
   fst (set_address APP_START_ADDRESS
          (snd (drain 50 (add_event (mkProgress "write" 0 "Writing firmware..." 0 0) s2)))) = Ok true ->
   fst (flash_firmware name [] m verify jump batch_size s)
   = if jump then match fst (jump_to_application s5) with
                  | Ok _ => Ok true
                  | Exc _ => Ok false
                  end
     else Ok true) /\
  pad_to_4byte_boundary [b] = [b; 255; 255; 255] /\
  flash_prepare name [b] s = (Ok [b; 255; 255; 255], s0) /\
  (forall s' s'', tx_ok s' = true -> 0 <= b < 256 ->
     write_firmware [b; 255; 255; 255] batch_size s' = (Ok true, s'') ->
     sent s'' = sent s' ++ [set_address_frame APP_START_ADDRESS; write_data_frame [b; 255; 255; 255]]).
Proof.
  intros s0 s1 s2 s3 s4 s5.
  assert (Hprep : flash_prepare name [] s = (Ok [], s0)) by reflexivity.
  split; [reflexivity|]. split; [exact Hprep|].
  split; [reflexivity|]. split; [reflexivity|].
  split.
  - intros Hr He Ha.
    assert (Hff : flash_firmware name [] m verify jump batch_size s
                  = try_catch (flash_stages [] m verify jump batch_size) flash_handler s0)
      by (unfold flash_firmware, try_catch; unfold bind at 1; rewrite Hprep; reflexivity).
    rewrite Hff. unfold try_catch, flash_stages.
    rewrite (bind_step _ _ _ _ _ (result_ok _ _ _ Hr)). fold s1. cbv beta iota delta [negb].
    rewrite (bind_step _ _ _ _ _ (eq_refl : sleep 500 s1 = (Ok tt, snd (sleep 500 s1)))).
    rewrite (bind_step _ _ _ _ _ (result_ok _ _ _ He)). fold s2. cbv beta iota delta [negb].
    assert (Hw : write_firmware [] batch_size s2 = (Ok true, s4)).
    { unfold write_firmware. cbn [length Z.of_nat].
      rewrite (bind_step _ _ _ _ _ (report_step _ _ _ _ _ s2)). cbv beta.
      rewrite (bind_step _ _ _ _ _ (drain_shape _ _)). cbv beta.
      rewrite (bind_step _ _ _ _ _ (result_ok _ _ _ Ha)). fold s3. cbv beta iota delta [negb].
      reflexivity. }
    rewrite (bind_step _ _ _ _ _ Hw). cbv beta iota delta [negb].
    destruct verify.
    + rewrite (bind_step _ _ _ _ _ (eq_refl : verify_flash [] batch_size s4 = (Ok true, s5))).
      cbv beta iota delta [negb].
      destruct jump.
      * cbv [bind ret].
        pose proof (no_oof_jump s5) as Hj.
        destruct (jump_to_application s5) as [[j|e] s6]; simpl in Hj |- *.
        -- destruct j; reflexivity.
        -- destruct e; [reflexivity | reflexivity | reflexivity | congruence].
      * reflexivity.
    + cbv beta iota delta [negb].
      assert (E5 : s5 = s4) by reflexivity. rewrite E5.
      destruct jump.
      * cbv [bind ret].
        pose proof (no_oof_jump s4) as Hj.
        destruct (jump_to_application s4) as [[j|e] s6]; simpl in Hj |- *.
        -- destruct j; reflexivity.
        -- destruct e; [reflexivity | reflexivity | reflexivity | congruence].
      * reflexivity.
  - split; [reflexivity|]. split; [reflexivity|].
    intros s' s'' Htx Hb H.
    assert (Hbs : List.Forall (fun x => 0 <= x < 256) [b; 255; 255; 255])
      by (repeat constructor; lia).
    rewrite (write_firmware_sent [b; 255; 255; 255] batch_size s' s'' Htx Hbs H). reflexivity.
Qed.

(** The flash of an empty image against a target that answers every
    handshake, with the jump requested and acknowledged. *)
Lemma empty_and_one_byte_images_witness :
  let s := mkFS 0 coop_empty [] [] true in
  fst (flash_firmware "fw.bin" [] 0 true true 16 s) = Ok true.
Proof.
  intros s.
  destruct (empty_and_one_byte_images "fw.bin" 0xAB 0 16 true true s)
    as (_ & _ & _ & _ & H & _).
  rewrite (H ltac:(vm_compute; reflexivity) ltac:(vm_compute; reflexivity)
             ltac:(vm_compute; reflexivity)).
  vm_compute. reflexivity.
Defined.

End ImageStages.

Module RelayExtras.
Import NetRelay.

Lemma poll_once_count (st : RxState) (p : PollResp) :
  error_count (poll_once st p) = 0 \/ error_count (poll_once st p) = error_count st \/
  error_count (poll_once st p) = error_count st + 1.
Proof.
  destruct p as [[|] ms| | | |]; simpl; auto.
  destruct (dispatch (last_ts st) (sort_by_ts ms)) as [[l cs] e]. destruct e; simpl; auto.
Qed.

Lemma receive_loop_bound (polls : list PollResp) (st : RxState) :
  0 <= error_count st < 10 -> 0 <= error_count (receive_loop st polls) <= 10.
Proof.
  revert st. induction polls as [|p r IH]; intros st Hst; simpl; [lia|].
  destruct (poll_once_count st p) as [E|[E|E]];
    destruct (max_errors <=? error_count (poll_once st p)) eqn:Hm;
    unfold max_errors in Hm; try (apply Z.leb_le in Hm); try (apply Z.leb_gt in Hm);
    try lia; apply IH; lia.
Qed.

Lemma receive_loop_failures (fs rest : list PollResp) (st : RxState) :
  0 <= error_count st < 10 -> error_count st + Z.of_nat (length fs) = 10 ->
  List.Forall (fun p => match p with HttpOk _ _ => False | _ => True end) fs ->
  receive_loop st (fs ++ rest) = mkRx (last_ts st) 10 (delivered st).
Proof.
  revert st. induction fs as [|p fs' IH]; intros st Hst Hlen Hf; simpl in Hlen; [lia|].
  inversion Hf as [|? ? Hp Hf']; subst.
  assert (E : poll_once st p = mkRx (last_ts st) (error_count st + 1) (delivered st))
    by (destruct p; [contradiction | reflexivity..]).
  simpl. rewrite E. simpl. unfold max_errors.
  destruct (10 <=? error_count st + 1) eqn:Hm.
  - apply Z.leb_le in Hm. f_equal. lia.
  - apply Z.leb_gt in Hm. rewrite (IH (mkRx (last_ts st) (error_count st + 1) (delivered st))
    ltac:(simpl; lia) ltac:(simpl; lia) Hf'). reflexivity.
Qed.

(** [X11] The receive thread's error counter stays within 0..10, and from
    any count below 10 the failures that bring it to 10 (non-200 statuses,
    timeouts, connection or other errors, with no success in between) stop
    the thread, whatever the polls after them, keeping the high-water mark
    and the frames delivered. *)
Theorem receive_loop_error_limit (st : RxState) (Hst : 0 <= error_count st < 10) :
  (forall polls, 0 <= error_count (receive_loop st polls) <= 10) /\
  (forall fs rest, error_count st + Z.of_nat (length fs) = 10 ->
     List.Forall (fun p => match p with HttpOk _ _ => False | _ => True end) fs ->
     receive_loop st (fs ++ rest) = mkRx (last_ts st) 10 (delivered st)).
Proof.
  split.
  - intros polls. apply receive_loop_bound. exact Hst.
  - intros fs rest. apply receive_loop_failures. exact Hst.
Qed.

Lemma receive_loop_error_limit_witness :
  receive_loop (mkRx 5 0 []) (repeat HttpTimeout 10 ++ [HttpOk true
    [mkServerMsg (Some 9) (Some (IdInt 0x100)) (Some (DList [1])) None None None None]])
  = mkRx 5 10 [].
Proof.
  exact (proj2 (receive_loop_error_limit (mkRx 5 0 []) ltac:(simpl; lia))
           (repeat HttpTimeout 10) _ eq_refl ltac:(repeat constructor)).
Defined.

End RelayExtras.

Module BluetoothExtras.
Import NetRelay Bluetooth.

Lemma hex_digit_range (c : ascii) (d : Z) : Text.hex_digit c = Some d -> 0 <= d < 16.
Proof.
  unfold Text.hex_digit. set (n := Z.of_nat (nat_of_ascii c)).
  destruct ((48 <=? n) && (n <=? 57)) eqn:E1;
    [intros H; inversion H; subst; apply andb_true_iff in E1 as [A B];
     apply Z.leb_le in A; apply Z.leb_le in B; lia|].
  destruct ((65 <=? n) && (n <=? 70)) eqn:E2;
    [intros H; inversion H; subst; apply andb_true_iff in E2 as [A B];
     apply Z.leb_le in A; apply Z.leb_le in B; lia|].
  destruct ((97 <=? n) && (n <=? 102)) eqn:E3; [|discriminate].
  intros H; inversion H; subst. apply andb_true_iff in E3 as [A B].
  apply Z.leb_le in A; apply Z.leb_le in B; lia.
Qed.

Lemma fromhex_bytes (l : list ascii) (bs : list Z) :
  Text.fromhex l = Some bs -> List.Forall (fun b => 0 <= b < 256) bs.
Proof.
  assert (G : forall n l bs, (length l <= n)%nat -> Text.fromhex l = Some bs ->
            List.Forall (fun b => 0 <= b < 256) bs).
  { induction n as [|n IH]; intros l' bs' Hl H.
    - destruct l'; simpl in Hl; [|lia]. inversion H. constructor.
    - destruct l' as [|c r]; simpl in H; [inversion H; constructor|].
      destruct (Text.is_ascii_space c); [apply (IH r); [simpl in Hl; lia | exact H]|].
      destruct r as [|c2 r2]; [discriminate|].
      destruct (Text.hex_digit c) as [a|] eqn:Ea; [|discriminate].
      destruct (Text.hex_digit c2) as [b|] eqn:Eb; [|discriminate].
      destruct (Text.fromhex r2) as [t|] eqn:Et; [|discriminate].
      simpl in H. inversion H; subst.
      apply hex_digit_range in Ea. apply hex_digit_range in Eb.
      constructor; [lia|]. apply (IH r2); [simpl in Hl; lia | exact Et]. }
  apply (G (length l) l bs). lia.
Qed.

Lemma parse_data_bytes (v : DataVal) (d : list Z) :
  parse_data v = Some d -> List.Forall (fun b => 0 <= b < 256) d.
Proof.
  destruct v as [l|s]; simpl.
  - unfold Text.bytes_of_list.
    destruct (forallb (fun b => (0 <=? b) && (b <? 256)) l) eqn:E; [|discriminate].
    intros H; inversion H; subst. apply List.Forall_forall. intros x Hx.
    rewrite forallb_forall in E. specialize (E x Hx).
    apply andb_true_iff in E as [E1 E2]. apply Z.leb_le in E1. apply Z.ltb_lt in E2. lia.
  - destruct (Text.remove_spaces s) as [|c r] eqn:Er.
    + intros H; inversion H. constructor.
    + apply fromhex_bytes.
Qed.

Lemma parse_message_valid (m : BtMsg) (time_now : Z) (c : BtCANMessage) :
  parse_message m time_now = Some c ->
  bt_dlc c = Z.of_nat (length (bt_data c)) /\ List.Forall (fun b => 0 <= b < 256) (bt_data c).
Proof.
  unfold parse_message.
  destruct (parse_id (get (b_id m) (IdInt 0))) as [arb|]; [|discriminate].
  match goal with |- context [parse_data ?dv] =>
    destruct (parse_data dv) as [d|] eqn:Ed; [|discriminate] end.
  intros H. inversion H; subst. simpl. split; [reflexivity|].
  eapply parse_data_bytes. exact Ed.
Qed.

(** [X12] A message [_parse_message] accepts has a DLC equal to the number
    of data bytes, every data byte in 0..255, the local receive time as
    timestamp when the server sent none, and an extended flag that defaults
    to [id > 0x7FF]. *)
Theorem bt_parse_message_fields (m : BtMsg) (time_now : Z) (c : BtCANMessage)
    (H : parse_message m time_now = Some c) :
  bt_dlc c = Z.of_nat (length (bt_data c)) /\
  List.Forall (fun b => 0 <= b < 256) (bt_data c) /\
  bt_timestamp c = get (b_timestamp m) time_now /\
  is_extended_id c = get (b_is_extended m) (0x7FF <? arbitration_id c).
Proof.
  unfold parse_message in H.
  destruct (parse_id (get (b_id m) (IdInt 0))) as [arb|]; [|discriminate].
  match type of H with context [parse_data ?dv] =>
    destruct (parse_data dv) as [d|] eqn:Ed; [|discriminate] end.
  inversion H; subst. simpl. repeat split; try reflexivity.
  eapply parse_data_bytes. exact Ed.
Qed.

Lemma bt_parse_message_fields_witness :
  parse_message (mkBtMsg None (Some (IdStr "0x123")) (Some (DStr "01 FF")) None None None) 77
  = Some (mkBt 77 0x123 false false 2 [1; 255]) /\
  bt_dlc (mkBt 77 0x123 false false 2 [1; 255]) = 2.
Proof.
  assert (H : parse_message (mkBtMsg None (Some (IdStr "0x123")) (Some (DStr "01 FF")) None None None) 77
              = Some (mkBt 77 0x123 false false 2 [1; 255])) by (vm_compute; reflexivity).
  split; [exact H|].
  exact (proj1 (bt_parse_message_fields _ _ _ H)).
Defined.

(** [X21] [_process_messages] hands nothing over without a callback.
    With one, it hands the callback at most one frame per message of the
    event; a frame is handed over exactly when some message of the event
    parses to it; and every frame it hands over has a DLC equal to its data
    length and data bytes in 0..255. *)
Theorem bt_process_messages (has_callback : bool) (messages : list (BtMsg * Z)) :
  process_messages false messages = [] /\
  (forall c, In c (process_messages true messages) <->
             exists m t, In (m, t) messages /\ parse_message m t = Some c) /\
  (length (process_messages has_callback messages) <= length messages)%nat /\
  List.Forall (fun c => bt_dlc c = Z.of_nat (length (bt_data c)) /\
                        List.Forall (fun b => 0 <= b < 256) (bt_data c))
    (process_messages has_callback messages).
Proof.
  split; [reflexivity|].
  split.
  { intros c. unfold process_messages.
    induction messages as [|[m t] r IH]; simpl.
    - split; [intros [] | intros (m & t & [] & _)].
    - destruct (parse_message m t) as [c'|] eqn:E; simpl.
      + split.
        * intros [<-|Hin]; [exists m, t; split; [left; reflexivity | exact E]|].
          destruct (proj1 IH Hin) as (m' & t' & H1 & H2). exists m', t'. split; [right|]; assumption.
        * intros (m' & t' & [Heq|Hin] & H2).
          -- inversion Heq; subst. left. congruence.
          -- right. apply IH. exists m', t'. split; assumption.
      + split.
        * intros Hin. destruct (proj1 IH Hin) as (m' & t' & H1 & H2).
          exists m', t'. split; [right|]; assumption.
        * intros (m' & t' & [Heq|Hin] & H2).
          -- inversion Heq; subst. congruence.
          -- apply IH. exists m', t'. split; assumption. }
  unfold process_messages. destruct has_callback; [|simpl; split; [lia | constructor]].
  induction messages as [|[m t] r [IH1 IH2]]; simpl; [split; [lia | constructor]|].
  destruct (parse_message m t) as [c|] eqn:E; simpl.
  - split; [lia|]. constructor; [exact (parse_message_valid _ _ _ E) | exact IH2].
  - split; [lia | exact IH2].
Qed.

(** *** Line framing *)

Lemma split_first_none (b : list Z) : split_first b = None -> ~ In newline b.
Proof.
  induction b as [|c r IH]; simpl; [auto|].
  destruct (c =? newline) eqn:E; [discriminate|].
  destruct (split_first r); [discriminate|]. intros _ [Hc|Hr].
  - subst. rewrite Z.eqb_refl in E. discriminate.
  - exact (IH eq_refl Hr).
Qed.

Lemma split_first_some (b l r : list Z) :
  split_first b = Some (l, r) -> b = l ++ newline :: r /\ ~ In newline l.
Proof.
  revert l. induction b as [|c b' IH]; intros l; simpl; [discriminate|].
  destruct (c =? newline) eqn:E.
  - intros H; inversion H; subst. apply Z.eqb_eq in E. subst. split; [reflexivity|auto].
  - destruct (split_first b') as [[l' r']|] eqn:Es; [|discriminate].
    simpl. intros H; inversion H; subst.
    destruct (IH l' eq_refl) as [H1 H2]. split; [simpl; rewrite H1; reflexivity|].
    intros [Hc|Hin]; [subst; rewrite Z.eqb_refl in E; discriminate | exact (H2 Hin)].
Qed.

Lemma split_first_line (l r : list Z) :
  ~ In newline l -> split_first (l ++ newline :: r) = Some (l, r).
Proof.
  induction l as [|c l' IH]; intros Hl; simpl.
  - rewrite ?Z.eqb_refl. reflexivity.
  - destruct (c =? newline) eqn:E.
    + apply Z.eqb_eq in E. subst. exfalso. apply Hl. left. reflexivity.
    + rewrite IH by (intros Hin; apply Hl; right; exact Hin). reflexivity.
Qed.

Lemma split_first_nonl (b : list Z) : ~ In newline b -> split_first b = None.
Proof.
  intros Hb. destruct (split_first b) as [[l r]|] eqn:E; [|reflexivity].
  exfalso. destruct (split_first_some _ _ _ E) as [Eb _]. apply Hb. rewrite Eb.
  apply in_or_app. right. left. reflexivity.
Qed.

Lemma split_lines_spec (fuel : nat) (buf : list Z) :
  (length buf <= fuel)%nat ->
  buf = join_lines (fst (split_lines fuel buf)) ++ snd (split_lines fuel buf) /\
  List.Forall (fun l => ~ In newline l) (fst (split_lines fuel buf)) /\
  ~ In newline (snd (split_lines fuel buf)).
Proof.
  revert buf. induction fuel as [|f IH]; intros buf Hl.
  - destruct buf; simpl in Hl; [|lia]. simpl. repeat split; auto.
  - simpl. destruct (split_first buf) as [[line rest]|] eqn:E.
    + destruct (split_first_some _ _ _ E) as [Eb Hline].
      assert (Hr : (length rest <= f)%nat)
        by (rewrite Eb, length_app in Hl; simpl in Hl; lia).
      destruct (IH rest Hr) as [H1 [H2 H3]].
      destruct (split_lines f rest) as [ls b] eqn:Es. simpl in *.
      split; [|split; [constructor; assumption | exact H3]].
      rewrite Eb, H1. unfold join_lines. simpl. rewrite <- !app_assoc. reflexivity.
    + simpl. split; [reflexivity|]. split; [constructor|]. apply split_first_none. exact E.
Qed.

Lemma join_lines_app (a b : list (list Z)) :
  join_lines (a ++ b) = join_lines a ++ join_lines b.
Proof. unfold join_lines. rewrite List.map_app, concat_app. reflexivity. Qed.

Lemma join_lines_length (ls : list (list Z)) : (length ls <= length (join_lines ls))%nat.
Proof.
  induction ls as [|l r IH]; simpl; [lia|]. unfold join_lines in *. simpl.
  rewrite !length_app. simpl. lia.
Qed.

Lemma split_lines_of (fuel : nat) (ls : list (list Z)) (rest : list Z) :
  (length ls <= fuel)%nat -> List.Forall (fun l => ~ In newline l) ls -> ~ In newline rest ->
  split_lines fuel (join_lines ls ++ rest) = (ls, rest).
Proof.
  revert fuel. induction ls as [|l r IH]; intros fuel Hf Hls Hr.
  - destruct fuel; simpl; [reflexivity|]. rewrite (split_first_nonl _ Hr). reflexivity.
  - destruct fuel as [|f]; simpl in Hf; [lia|].
    inversion Hls as [|? ? Hl Hr']; subst.
    unfold join_lines. cbn [List.map concat]. rewrite <- !app_assoc. cbn [app split_lines].
    rewrite (split_first_line _ _ Hl). fold (join_lines r).
    rewrite (IH f ltac:(lia) Hr' Hr). reflexivity.
Qed.

Lemma take_lines_app (x y : list Z) :
  split_lines (length (x ++ y)) (x ++ y)
  = let '(ls, r) := split_lines (length x) x in
    let '(ls2, r2) := split_lines (length (r ++ y)) (r ++ y) in (ls ++ ls2, r2).
Proof.
  destruct (split_lines_spec (length x) x ltac:(lia)) as [Ex [Hx Hrx]].
  destruct (split_lines (length x) x) as [ls r] eqn:E1. simpl in Ex, Hx, Hrx.
  destruct (split_lines_spec (length (r ++ y)) (r ++ y) ltac:(lia)) as [Ey [Hy Hry]].
  destruct (split_lines (length (r ++ y)) (r ++ y)) as [ls2 r2] eqn:E2. simpl in Ey, Hy, Hry.
  assert (Exy : x ++ y = join_lines (ls ++ ls2) ++ r2)
    by (rewrite join_lines_app, <- app_assoc, <- Ey, Ex, <- app_assoc; reflexivity).
  rewrite Exy. apply split_lines_of; [|apply List.Forall_app; split; assumption | exact Hry].
  pose proof (join_lines_length (ls ++ ls2)). rewrite (length_app (join_lines (ls ++ ls2)) r2). lia.
Qed.

Lemma In_lstrip (x : Z) (l : list Z) : In x (lstrip l) -> In x l.
Proof.
  induction l as [|c r IH]; simpl; [auto|].
  destruct (is_space c); [intros H; right; exact (IH H) | auto].
Qed.

Lemma In_strip (x : Z) (l : list Z) : In x (strip l) -> In x l.
Proof.
  unfold strip. intros H. apply in_rev in H. apply In_lstrip in H.
  apply in_rev in H. apply In_lstrip in H. exact H.
Qed.

Lemma decode_fuel_ascii (fuel : nat) (l : list Z) :
  (length l <= fuel)%nat -> List.Forall (fun b => 0 <= b < 128) l -> utf8_decode_ignore fuel l = l.
Proof.
  revert fuel. induction l as [|b r IH]; intros fuel Hf Hl; destruct fuel as [|f];
    try reflexivity; simpl in Hf; [lia|].
  inversion Hl as [|? ? Hb Hr]; subst. cbn [utf8_decode_ignore].
  replace (b <? 0x80) with true by (symmetry; apply Z.ltb_lt; lia).
  rewrite (IH f ltac:(lia) Hr). reflexivity.
Qed.

(** ASCII bytes decode to themselves. *)
Lemma decode_ascii (l : list Z) : List.Forall (fun b => 0 <= b < 128) l -> decode l = l.
Proof. intros H. unfold decode. apply decode_fuel_ascii; [lia | exact H]. Qed.

Lemma ascii_concat (chunks : list (list Z)) :
  List.Forall (fun c => c <> [] /\ List.Forall (fun b => 0 <= b < 128) c) chunks ->
  List.Forall (fun b => 0 <= b < 128) (concat chunks).
Proof.
  induction chunks as [|c r IH]; intros H; simpl; [constructor|].
  inversion H as [|? ? [_ Hc] Hr]; subst. apply List.Forall_app. split; [exact Hc | exact (IH Hr)].
Qed.

Lemma handle_lines_app (e : list Z -> bool) (a b : list (list Z)) :
  handle_lines e (a ++ b)
  = let '(h, st) := handle_lines e a in
    if st then (h, true) else let '(h2, st2) := handle_lines e b in (h ++ h2, st2).
Proof.
  induction a as [|l a' IH]; simpl.
  - destruct (handle_lines e b); reflexivity.
  - destruct (e l); [reflexivity|]. rewrite IH.
    destruct (handle_lines e a') as [h st]. destruct st; [reflexivity|].
    destruct (handle_lines e b); reflexivity.
Qed.

Lemma handle_lines_in (e : list Z -> bool) (ls : list (list Z)) (l : list Z) :
  In l (fst (handle_lines e ls)) -> In l ls.
Proof.
  induction ls as [|a r IH]; simpl; [auto|].
  destruct (e a); simpl; [intros [H|[]]; left; exact H|].
  destruct (handle_lines e r) as [h st]. simpl in *.
  intros [H|H]; [left; exact H | right; exact (IH H)].
Qed.

Lemma receive_lines_chunks (e : list Z -> bool) (chunks : list (list Z)) (buf : list Z) :
  ~ In newline buf ->
  List.Forall (fun c => c <> [] /\ List.Forall (fun b => 0 <= b < 128) c) chunks ->
  fst (fst (receive_lines e buf chunks)) = fst (fst (receive_chunk e buf (concat chunks))) /\
  snd (receive_lines e buf chunks) = snd (receive_chunk e buf (concat chunks)) /\
  (snd (receive_lines e buf chunks) = false ->
   snd (fst (receive_lines e buf chunks)) = snd (fst (receive_chunk e buf (concat chunks)))).
Proof.
  revert buf. induction chunks as [|c r IH]; intros buf Hbuf Hch.
  - assert (Hs : split_lines (length (buf ++ decode [])) (buf ++ decode []) = ([], buf)).
    { change (decode []) with (@nil Z). rewrite app_nil_r.
      exact (split_lines_of (length buf) [] buf ltac:(simpl; lia) ltac:(constructor) Hbuf). }
    cbn [concat receive_lines]. unfold receive_chunk. cbv zeta. rewrite Hs. simpl. auto.
  - inversion Hch as [|? ? [Hne Hasc] Hr]; subst.
    destruct c as [|b0 c']; [congruence|].
    pose proof (ascii_concat r Hr) as Har.
    assert (Ed1 : decode (b0 :: c') = b0 :: c') by (apply decode_ascii; exact Hasc).
    assert (Ed2 : decode (concat ((b0 :: c') :: r)) = (b0 :: c') ++ concat r).
    { apply decode_ascii. apply (ascii_concat ((b0 :: c') :: r) Hch). }
    assert (Edr : decode (concat r) = concat r) by (apply decode_ascii; exact Har).
    destruct (split_lines_spec (length (buf ++ b0 :: c')) (buf ++ b0 :: c') ltac:(lia))
      as [_ [_ Hrest1]].
    destruct (split_lines (length (buf ++ b0 :: c')) (buf ++ b0 :: c')) as [ls1 rest1] eqn:E1.
    simpl in Hrest1.
    destruct (split_lines (length (rest1 ++ concat r)) (rest1 ++ concat r)) as [ls2 r2] eqn:E2.
    set (F := fun ls : list (list Z) =>
                List.filter (fun l => match l with [] => false | _ => true end) (List.map strip ls)).
    assert (Ec : receive_chunk e buf (b0 :: c')
                 = let '(h, st) := handle_lines e (F ls1) in (h, rest1, st))
      by (unfold receive_chunk; cbv zeta; rewrite Ed1, E1; reflexivity).
    assert (Ew : receive_chunk e buf (concat ((b0 :: c') :: r))
                 = let '(h, st) := handle_lines e (F ls1 ++ F ls2) in (h, r2, st)).
    { unfold receive_chunk. cbv zeta. rewrite Ed2, app_assoc.
      rewrite (take_lines_app (buf ++ b0 :: c') (concat r)), E1, E2.
      unfold F. rewrite List.map_app, List.filter_app. reflexivity. }
    assert (Ey : receive_chunk e rest1 (concat r)
                 = let '(h, st) := handle_lines e (F ls2) in (h, r2, st))
      by (unfold receive_chunk; cbv zeta; rewrite Edr, E2; reflexivity).
    destruct (IH rest1 Hrest1 Hr) as [I1 [I2 I3]].
    rewrite Ey in I1, I2, I3.
    cbn [receive_lines]. rewrite Ec, Ew, handle_lines_app.
    destruct (handle_lines e (F ls1)) as [h1 st1].
    destruct st1; [simpl; split; [reflexivity | split; [reflexivity | discriminate]]|].
    destruct (handle_lines e (F ls2)) as [h2 st2].
    destruct (receive_lines e rest1 r) as [[h2' b2'] st2']. simpl in *.
    subst. split; [reflexivity|]. split; [reflexivity|]. exact I3.
Qed.

(** [X13] Each [recv] chunk is decoded on its own with [errors='ignore'].
    For a stream of non-empty ASCII chunks, the lines the Bluetooth receive
    loop hands to [_handle_response], and whether it breaks, do not depend
    on how the stream is cut into chunks: they are those of the whole
    stream received at once, with the same buffer left when the loop goes
    on.  Each handled line is non-empty and holds no newline.  Beyond ASCII
    the chunking matters: the two bytes of "é" split across two chunks are
    dropped, while in one chunk they come through. *)
Theorem bt_line_framing (escapes : list Z -> bool) (chunks : list (list Z))
    (Hascii : List.Forall (fun c => c <> [] /\ List.Forall (fun b => 0 <= b < 128) c) chunks) :
  (fst (fst (receive_lines escapes [] chunks))
   = fst (fst (receive_chunk escapes [] (concat chunks))) /\
   snd (receive_lines escapes [] chunks) = snd (receive_chunk escapes [] (concat chunks)) /\
   (snd (receive_lines escapes [] chunks) = false ->
    snd (fst (receive_lines escapes [] chunks))
    = snd (fst (receive_chunk escapes [] (concat chunks))))) /\
  List.Forall (fun l => l <> [] /\ ~ In newline l) (fst (fst (receive_lines escapes [] chunks))) /\
  fst (fst (receive_lines (fun _ => false) [] [[97; 0xC3]; [0xA9; 10]])) = [[97]] /\
  fst (fst (receive_lines (fun _ => false) [] [[97; 0xC3; 0xA9; 10]])) = [[97; 0xE9]].
Proof.
  destruct (receive_lines_chunks escapes chunks [] (fun H => H) Hascii) as [E1 [E2 E3]].
  split; [auto|]. split; [|split; vm_compute; reflexivity].
  rewrite E1. unfold receive_chunk. cbv zeta.
  destruct (split_lines_spec (length ([] ++ decode (concat chunks))) ([] ++ decode (concat chunks))
              ltac:(lia)) as [_ [Hls _]].
  destruct (split_lines (length ([] ++ decode (concat chunks))) ([] ++ decode (concat chunks)))
    as [ls rest]. simpl in Hls.
  destruct (handle_lines escapes _) as [h st] eqn:Eh. simpl.
  apply List.Forall_forall. intros l Hl.
  assert (Hl' : In l (fst (handle_lines escapes
                  (List.filter (fun l => match l with [] => false | _ => true end)
                     (List.map strip ls))))) by (rewrite Eh; exact Hl).
  apply handle_lines_in in Hl'.
  apply List.filter_In in Hl' as [Hm Hne].
  apply List.in_map_iff in Hm as [l0 [Hs Hin]]. subst l.
  rewrite List.Forall_forall in Hls. split.
  - destruct (strip l0); [discriminate | congruence].
  - intros Hn. apply In_strip in Hn. exact (Hls l0 Hin Hn).
Qed.

Lemma bt_line_framing_witness :
  fst (fst (receive_lines (fun _ => false) [] [[104; 105]; [10]])) = [[104; 105]].
Proof.
  destruct (bt_line_framing (fun _ => false) [[104; 105]; [10]]
              ltac:(repeat constructor; (discriminate || lia))) as [[E _] _].
  rewrite E. vm_compute. reflexivity.
Defined.

End BluetoothExtras.

Module ApiExtras.
Import Api.






Lemma list_ascii_append (a b : string) :
  list_ascii_of_string (String.append a b) = list_ascii_of_string a ++ list_ascii_of_string b.
Proof. induction a as [|c a IH]; simpl; [reflexivity|]. rewrite IH. reflexivity. Qed.

Definition slash_step (c : ascii) (acc : list (list ascii)) : list (list ascii) :=
  if (c =? "/"%char)%char then [] :: acc
  else match acc with a :: r => (c :: a) :: r | [] => [[c]] end.

Lemma slash_fold_app (l : list ascii) (a : list ascii) (tl : list (list ascii)) :
  fold_right slash_step (a :: tl) l = fold_right slash_step [a] l ++ tl.
Proof.
  induction l as [|c l IH]; simpl; [reflexivity|]. rewrite IH.
  destruct (fold_right slash_step [a] l) as [|h t] eqn:E.
  - exfalso. destruct l as [|c' l']; simpl in E; [discriminate|].
    unfold slash_step in E. destruct (c' =? "/")%char; [discriminate|].
    match type of E with (match ?x with _ => _ end) = _ => destruct x end; discriminate.
  - unfold slash_step. destruct (c =? "/")%char; reflexivity.
Qed.

Lemma split_slash_dir (d f : list ascii) :
  split_slash (d ++ "/"%char :: f) = split_slash d ++ split_slash f.
Proof.
  unfold split_slash. fold slash_step. rewrite fold_right_app. simpl.
  unfold slash_step at 2. simpl. rewrite slash_fold_app. reflexivity.
Qed.

(** [X15] A DBC file inside a directory uses the same transmit-list file
    as the bare file name: for any [dir] and any path [dbc_file] whose
    [Path(...).name] is not empty, [dir/dbc_file] and [dbc_file] have the
    same stem. *)
Theorem list_file_in_dir (dir dbc_file : string) (Hname : path_name dbc_file <> []) :
  list_file (String.append dir (String "/"%char dbc_file)) = list_file dbc_file.
Proof.
  unfold list_file, stem.
  assert (E : path_name (String.append dir (String "/"%char dbc_file)) = path_name dbc_file).
  { unfold path_name. rewrite list_ascii_append. simpl list_ascii_of_string.
    rewrite split_slash_dir, filter_app, last_app.
    destruct (last (filter _ (split_slash (list_ascii_of_string dbc_file)))) eqn:El.
    - reflexivity.
    - exfalso. apply Hname. unfold path_name. rewrite El. reflexivity. }
  rewrite E. reflexivity.
Qed.

Lemma list_file_in_dir_witness :
  path_name "car.dbc" <> [] /\
  list_file (String.append "dbc" (String "/"%char "car.dbc")) = list_file "car.dbc".
Proof.
  assert (H : path_name "car.dbc" <> []) by (vm_compute; discriminate).
  split; [exact H|]. exact (list_file_in_dir "dbc" "car.dbc" H).
Defined.

End ApiExtras.

Module GuiExtras.
Import Gui.






(** [X17] The signal [Cell_<n>_Voltage] lands in module [m], cell [c]
    exactly when [n = 18 * m + c + 1] with [0 <= m < 6] and [0 <= c < 18]:
    the cells 1..108 fill the 6 x 18 table one to one, and every other
    number is ignored. *)
Theorem cell_slot_spec (n m c : Z) :
  cell_slot n = Some (m, c) <-> 0 <= m < 6 /\ 0 <= c < 18 /\ n = 18 * m + c + 1.
Proof.
  unfold cell_slot. cbv zeta. split.
  - destruct ((0 <=? (n - 1) / 18) && ((n - 1) / 18 <? 6) && (0 <=? (n - 1) mod 18)
              && ((n - 1) mod 18 <? 18)) eqn:E; [|discriminate].
    intros H; inversion H; subst. clear H.
    repeat rewrite andb_true_iff in E. destruct E as [[[E1 E2] E3] E4].
    apply Z.leb_le in E1. apply Z.ltb_lt in E2. apply Z.leb_le in E3. apply Z.ltb_lt in E4.
    pose proof (Z.div_mod (n - 1) 18 ltac:(lia)). lia.
  - intros (Hm & Hc & ->).
    replace ((18 * m + c + 1 - 1) / 18) with m
      by (apply (Z.div_unique _ _ _ c); lia).
    replace ((18 * m + c + 1 - 1) mod 18) with c
      by (apply (Z.mod_unique _ _ m); lia).
    assert (E : (0 <=? m) && (m <? 6) && (0 <=? c) && (c <? 18) = true).
    { repeat rewrite andb_true_iff.
      repeat split; first [apply Z.leb_le | apply Z.ltb_lt]; lia. }
    rewrite E. reflexivity.
Qed.

Lemma table_total_insert_new (md : gmap Z Entry) (k : Z) (v : Entry) :
  md !! k = None -> table_total (<[k:=v]> md) = e_count v + table_total md.
Proof.
  intros H. unfold table_total.
  rewrite (map_fold_insert_L (fun _ e acc => e_count e + acc) 0 k v md); [reflexivity | | exact H].
  intros. lia.
Qed.

Lemma table_total_lookup (md : gmap Z Entry) (k : Z) (e : Entry) :
  md !! k = Some e -> table_total md = e_count e + table_total (delete k md).
Proof.
  intros H. rewrite <- (insert_delete_id md k e H) at 1.
  apply table_total_insert_new. apply lookup_delete_eq.
Qed.

Lemma on_message_received_inv (st : GuiState) (msg : RxMsg) (t : Z) :
  total_messages st = table_total (message_data st) ->
  map_Forall (fun k e => e_id e = k /\ 1 <= e_count e) (message_data st) ->
  total_messages (on_message_received st msg t)
    = table_total (message_data (on_message_received st msg t)) /\
  map_Forall (fun k e => e_id e = k /\ 1 <= e_count e)
    (message_data (on_message_received st msg t)).
Proof.
  intros Htot Hall. unfold on_message_received. cbv zeta. simpl.
  destruct (message_data st !! m_id msg) as [e|] eqn:E.
  - pose proof (map_Forall_lookup_1 _ _ _ _ Hall E) as [Hid Hc].
    rewrite <- insert_delete_eq.
    split.
    + rewrite table_total_insert_new by apply lookup_delete_eq.
      rewrite Htot, (table_total_lookup _ _ _ E). simpl. lia.
    + rewrite insert_delete_eq. apply map_Forall_insert_2; [simpl; split; lia | exact Hall].
  - split.
    + rewrite table_total_insert_new by exact E. simpl. lia.
    + apply map_Forall_insert_2; [simpl; split; [reflexivity | lia] | exact Hall].
Qed.

(** [X18] Over any sequence of received messages, the GUI's total message
    counter equals the sum of the per-ID counts of its table, and every row
    is stored under its own ID with a count of at least 1, provided this
    holds at the start (as it does for the empty table and a zero total). *)
Theorem gui_table_counts (st : GuiState) (msgs : list (RxMsg * Z))
    (Htot : total_messages st = table_total (message_data st))
    (Hall : map_Forall (fun k e => e_id e = k /\ 1 <= e_count e) (message_data st)) :
  total_messages (receive_all st msgs) = table_total (message_data (receive_all st msgs)) /\
  map_Forall (fun k e => e_id e = k /\ 1 <= e_count e) (message_data (receive_all st msgs)).
Proof.
  unfold receive_all. revert st Htot Hall.
  induction msgs as [|[m t] r IH]; intros st Htot Hall; simpl; [auto|].
  destruct (on_message_received_inv st m t Htot Hall) as [H1 H2].
  exact (IH _ H1 H2).
Qed.

Lemma gui_table_counts_witness :
  let st := receive_all (mkGui None 0 ∅)
              [(mkRxMsg 0x100 [1] false false 1, 10); (mkRxMsg 0x200 [] true false 0, 20);
               (mkRxMsg 0x100 [2] false false 1, 30)] in
  total_messages st = table_total (message_data st).
Proof.
  exact (proj1 (gui_table_counts (mkGui None 0 ∅)
    [(mkRxMsg 0x100 [1] false false 1, 10); (mkRxMsg 0x200 [] true false 0, 20);
     (mkRxMsg 0x100 [2] false false 1, 30)] eq_refl (map_Forall_empty _))).
Defined.

Lemma decode_named (db : option Database) (id : Z) (data : list Z) (ext : bool) :
  decode_message db id data ext <> None -> exists n, get_message_name db id ext = Some n.
Proof.
  destruct db as [d|]; simpl; [|congruence].
  destruct (d !! lookup_id id ext); simpl; [eexists; reflexivity | congruence].
Qed.

(** [X22] After a message is received, its row shows decoded signals only
    if [_get_message_name] finds the message, and the row's name is then
    that name; with no DBC loaded the row has no decoded signals and an
    empty name. *)
Theorem gui_decoded_row_named (st : GuiState) (msg : RxMsg) (t : Z) :
  exists e, message_data (on_message_received st msg t) !! m_id msg = Some e /\
    (e_decoded e <> None ->
     get_message_name (dbc_database st) (m_id msg) (m_is_extended msg) = Some (e_name e)) /\
    (dbc_database st = None -> e_decoded e = None /\ e_name e = "").
Proof.
  unfold on_message_received. cbv zeta. simpl. rewrite lookup_insert_eq.
  eexists. split; [reflexivity|].
  destruct (message_data st !! m_id msg) as [e0|]; simpl; split;
    try (intros Hd; destruct (decode_named _ _ _ _ Hd) as [n Hn]; rewrite Hn; reflexivity);
    intros Hn; rewrite Hn; split; reflexivity.
Qed.

End GuiExtras.
